(** * SpaceKitService: connection dispatch and relay registry

    A shallow embedding of [src/service/index.js].  The class
    [SpaceKitService] keeps a [Map] from hostname to [WebSocketRelay] and
    reacts to connections delivered by the TLS proxy (port 443), the net
    proxy (port 80) and the WebSocket server, and to the callbacks of
    [db.run], [Bcrypt.compare] and [Dns.resolve4].

    Every method is a computation over the mutable world (the service
    object, the WebSocket objects, the callbacks handed to the runtime)
    that also records the calls it makes on its collaborators. *)

From Stdlib Require Import ZArith Ascii.
From stdpp Require Import base gmap strings list fin_maps.

(** ** JavaScript primitives used by the service *)
Module Js.

(** A template literal [`${v}`] of a value that is a string or
    [undefined]. *)
Definition template (v : option string) : string :=
  match v with
  | Some s => s
  | None => "undefined"
  end.

(** [s.startsWith(p)] *)
Definition startsWith (s p : string) : bool := String.prefix p s.

(** Truthiness of a string or [undefined]: the empty string is falsy. *)
Definition truthy (v : option string) : bool :=
  match v with
  | Some EmptyString => false
  | Some _ => true
  | None => false
  end.

(** [\r\n] *)
Definition crlf : string :=
  String "013"%char (String "010"%char EmptyString).

(** [xs[0]] *)
Definition first {A : Type} (xs : list A) : option A := head xs.

End Js.

(** ** Objects *)

Definition sock_id := nat.
Definition ws_id := nat.
Definition call_id := nat.

(** The configuration object handed to the constructor. *)
Record Config := {
  host : string;
  api : string;
  web : string;
  dnsZone : option string
}.

(** [new WebSocketRelay(webSocket)]: a fresh object wrapping a WebSocket. *)
Record WebSocketRelay := {
  relay_obj : nat;
  relay_webSocket : ws_id
}.

Global Instance WebSocketRelay_eq_dec : EqDecision WebSocketRelay.
Proof. solve_decision. Defined.

(** The fields of [this] that the handlers read or write. *)
Record SpaceKitService := {
  config : Config;
  apiHostname : string;
  webHostname : string;
  relays : gmap string WebSocketRelay; (* hostname -> WebSocketRelay *)
  dynamicDNS : option string
}.

(** A WebSocket of the [ws] server, with what the service attaches to it. *)
Record WebSocket := {
  upgradeReq_headers : gmap string string;
  ws_log : list (string * string);   (* webSocket.log = log.child(...) *)
  on_error : nat;                    (* 'error' listeners; they only log *)
  on_close : list string;            (* 'close' listeners, by the hostname
                                        each closure captured *)
  closed : bool                      (* 'close' has been emitted *)
}.

Definition fresh_WebSocket (headers : gmap string string) : WebSocket :=
  {| upgradeReq_headers := headers; ws_log := []; on_error := 0;
     on_close := []; closed := false |}.

(** What the credential store, bcrypt and the resolver call back with. *)
Record Row := { row_id : Z; api_key : string }.

Inductive DbResult :=
| DbError (err : string)
| DbOk (rows : list Row).

Inductive BcryptResult :=
| BcryptError (err : string)
| BcryptOk (pass : bool).

Inductive DnsResult :=
| DnsError (err : string)
| DnsOk (addresses : list string).

Inductive Reply :=
| DbReply (r : DbResult)
| BcryptReply (r : BcryptResult)
| DnsReply (r : DnsResult).

(** The closures the service hands to asynchronous calls, each with the
    variables it captured. *)
Inductive Callback :=
| AuthDbCallback (webSocket : ws_id) (hostname : string) (apikey : option string)
| AuthBcryptCallback (webSocket : ws_id) (hostname : string)
| DnsResolveCallback (hostname : string).

Inductive Level := info | error.  (* log.info, log.error *)

(** Calls on the collaborators, in the order they are made. *)
Inductive Effect :=
| Log (lvl : Level) (fields : list (string * string)) (msg : string)
| ApiServerConnection (socket : sock_id)      (* apiServer.emit('connection', socket) *)
| WebServerConnection (socket : sock_id)      (* webServer.emit('connection', socket) *)
| RelayAddSocket (relay : WebSocketRelay) (socket : sock_id)
    (hostname : string) (port : Z)            (* relay.addSocket(socket, hostname, port) *)
| SocketEnd (socket : sock_id) (data : string)  (* socket.end(data) *)
| WebSocketClose (webSocket : ws_id)          (* webSocket.close() *)
| DbRun (call : call_id) (query : string) (params : list (option string))
| BcryptCompare (call : call_id) (data : option string) (encrypted : string)
| DnsResolve4 (call : call_id) (name : string)
| DnsUpsert (zone : string) (hostname rtype : string) (address : option string)
    (* this.dynamicDNS.upsert(hostname, rtype, address) *)
| Uncaught (msg : string).

(** The world: the service, the WebSocket objects, the callbacks waiting
    in the runtime, and the allocation counters. *)
Record World := {
  service : SpaceKitService;
  webSockets : gmap ws_id WebSocket;
  pending : gmap call_id Callback;
  next_call : call_id;
  next_ws : ws_id;
  next_obj : nat
}.

Definition with_service (f : SpaceKitService → SpaceKitService) (w : World) : World :=
  {| service := f (service w); webSockets := webSockets w; pending := pending w;
     next_call := next_call w; next_ws := next_ws w; next_obj := next_obj w |}.

Definition with_webSockets (f : gmap ws_id WebSocket → gmap ws_id WebSocket)
    (w : World) : World :=
  {| service := service w; webSockets := f (webSockets w); pending := pending w;
     next_call := next_call w; next_ws := next_ws w; next_obj := next_obj w |}.

Definition set_relays (f : gmap string WebSocketRelay → gmap string WebSocketRelay)
    (this : SpaceKitService) : SpaceKitService :=
  {| config := config this; apiHostname := apiHostname this;
     webHostname := webHostname this; relays := f (relays this);
     dynamicDNS := dynamicDNS this |}.

(** ** Handlers as computations *)

Definition Act (A : Type) : Type := World → A * World * list Effect.

Definition result {A} (r : A * World * list Effect) : A := r.1.1.
Definition world {A} (r : A * World * list Effect) : World := r.1.2.
Definition effects {A} (r : A * World * list Effect) : list Effect := r.2.

Global Instance Act_ret : MRet Act := λ A a w, (a, w, []).
Global Instance Act_bind : MBind Act := λ A B k m w,
  let r1 := m w in
  let r2 := k (result r1) (world r1) in
  (result r2, world r2, effects r1 ++ effects r2).

Definition emit (e : Effect) : Act unit := λ w, (tt, w, [e]).
Definition this_ : Act SpaceKitService := λ w, (service w, w, []).
Definition update (f : World → World) : Act unit := λ w, (tt, f w, []).

(** Hand a closure to an asynchronous call; the runtime keeps it until the
    reply arrives. *)
Definition defer (k : Callback) : Act call_id := λ w,
  (next_call w,
   {| service := service w; webSockets := webSockets w;
      pending := <[next_call w := k]> (pending w);
      next_call := S (next_call w); next_ws := next_ws w;
      next_obj := next_obj w |},
   []).

(** [new WebSocketRelay(webSocket)] *)
Definition new_WebSocketRelay (webSocket : ws_id) : Act WebSocketRelay := λ w,
  ({| relay_obj := next_obj w; relay_webSocket := webSocket |},
   {| service := service w; webSockets := webSockets w; pending := pending w;
      next_call := next_call w; next_ws := next_ws w;
      next_obj := S (next_obj w) |},
   []).

Definition the_webSocket (webSocket : ws_id) : Act WebSocket := λ w,
  (default (fresh_WebSocket ∅) (webSockets w !! webSocket), w, []).

Definition update_webSocket (webSocket : ws_id) (f : WebSocket → WebSocket) : Act unit :=
  update (with_webSockets (λ m,
    <[webSocket := f (default (fresh_WebSocket ∅) (m !! webSocket))]> m)).

(** [webSocket.log = log.child({ for: hostname })] *)
Definition ws_set_log (webSocket : ws_id) (hostname : string) : Act unit :=
  update_webSocket webSocket (λ o,
    {| upgradeReq_headers := upgradeReq_headers o; ws_log := [("for", hostname)];
       on_error := on_error o; on_close := on_close o; closed := closed o |}).

(** [webSocket.on('error', ...)] *)
Definition ws_on_error (webSocket : ws_id) : Act unit :=
  update_webSocket webSocket (λ o,
    {| upgradeReq_headers := upgradeReq_headers o; ws_log := ws_log o;
       on_error := S (on_error o); on_close := on_close o; closed := closed o |}).

(** [webSocket.on('close', () => { this.relays.delete(hostname); })] *)
Definition ws_on_close (webSocket : ws_id) (hostname : string) : Act unit :=
  update_webSocket webSocket (λ o,
    {| upgradeReq_headers := upgradeReq_headers o; ws_log := ws_log o;
       on_error := on_error o; on_close := on_close o ++ [hostname];
       closed := closed o |}).

(** [webSocket.log.info(msg)] and [webSocket.log.error(err, msg)] *)
Definition ws_log_info (webSocket : ws_id) (msg : string) : Act unit :=
  o ← the_webSocket webSocket;
  emit (Log info (ws_log o) msg).

Definition ws_log_error (webSocket : ws_id) (err : string) (msg : string) : Act unit :=
  o ← the_webSocket webSocket;
  emit (Log error (ws_log o ++ [("err", err)]) msg).

(** ** The service *)

(** The constructor, as far as the fields above go. *)
Definition new_SpaceKitService (cfg : Config) : SpaceKitService :=
  {| config := cfg;
     apiHostname := api cfg +:+ "." +:+ host cfg;
     webHostname := web cfg +:+ "." +:+ host cfg;
     relays := ∅;
     dynamicDNS := if Js.truthy (dnsZone cfg) then dnsZone cfg else None |}.

Definition new_World (cfg : Config) : World :=
  {| service := new_SpaceKitService cfg; webSockets := ∅; pending := ∅;
     next_call := 0; next_ws := 0; next_obj := 0 |}.

Definition handleTlsConnection (socket : sock_id) (hostname : string) : Act unit :=
  this ← this_;
  emit (Log info [("for", hostname)] "new Tls connection");;
  if decide (hostname = apiHostname this) then
    emit (ApiServerConnection socket)
  else if decide (hostname = webHostname this) then
    emit (WebServerConnection socket)
  else
    match relays this !! hostname with
    | Some relay => emit (RelayAddSocket relay socket hostname 443%Z)
    | None =>
        let message := "Relay not connected" in
        emit (SocketEnd socket
                ("HTTP/1.1 500 " +:+ message +:+ Js.crlf +:+ Js.crlf +:+ message))
    end.

Definition handleNetConnection (socket : sock_id) (hostname path : string) : Act unit :=
  this ← this_;
  emit (Log info [("for", hostname); ("path", path)] "new Net connection");;
  if decide (hostname = host (config this)) then
    let response := "HTTP/1.1 301 Moved Permanently" +:+ Js.crlf +:+
                    "Location: https://" +:+ webHostname this +:+ path +:+
                    Js.crlf +:+ Js.crlf in
    emit (SocketEnd socket response)
  else if decide (hostname = apiHostname this ∨ hostname = webHostname this) then
    let response := "HTTP/1.1 301 Moved Permanently" +:+ Js.crlf +:+
                    "Location: https://" +:+ hostname +:+ path +:+
                    Js.crlf +:+ Js.crlf in
    emit (SocketEnd socket response)
  else
    if negb (Js.startsWith path "/.well-known/acme-challenge/") then
      let message := "Only ACME requests supported" in
      emit (SocketEnd socket
              ("HTTP/1.1 500 " +:+ message +:+ Js.crlf +:+ Js.crlf +:+ message))
    else
      match relays this !! hostname with
      | Some relay => emit (RelayAddSocket relay socket hostname 80%Z)
      | None =>
          let message := "Relay not connected" in
          emit (SocketEnd socket
                  ("HTTP/1.1 500 " +:+ message +:+ Js.crlf +:+ Js.crlf +:+ message))
      end.

Definition handleRelayConnection (webSocket : ws_id) (hostname : string) : Act unit :=
  relay ← new_WebSocketRelay webSocket;
  update (with_service (set_relays (λ m, <[hostname := relay]> m)));;
  ws_on_close webSocket hostname;;
  this ← this_;
  match dynamicDNS this with
  | Some _ =>
      call ← defer (DnsResolveCallback hostname);
      emit (DnsResolve4 call (api (config this) +:+ "." +:+ host (config this)))
  | None => mret tt
  end.

(** The callback of [Dns.resolve4] in [handleRelayConnection]. *)
Definition dnsResolveCallback (hostname : string) (r : DnsResult) : Act unit :=
  match r with
  | DnsError _ => mret tt  (* TODO: Send an error back to the client. *)
  | DnsOk addresses =>
      this ← this_;
      match dynamicDNS this with
      | Some zone => emit (DnsUpsert zone hostname "A" (Js.first addresses))
      | None => emit (Uncaught "TypeError")
      end
  end.

(** The callback of [Bcrypt.compare] in [authenticateRelayConnection]. *)
Definition authBcryptCallback (webSocket : ws_id) (hostname : string)
    (r : BcryptResult) : Act unit :=
  match r with
  | BcryptError err =>
      ws_log_error webSocket err "relay auth failed (bcrypt compare error)";;
      emit (WebSocketClose webSocket)
  | BcryptOk false =>
      ws_log_info webSocket "relay auth failed (api key incorrect)";;
      emit (WebSocketClose webSocket)
  | BcryptOk true =>
      ws_log_info webSocket "relay auth success";;
      handleRelayConnection webSocket hostname
  end.

(** The callback of [db.run] in [authenticateRelayConnection]. *)
Definition authDbCallback (webSocket : ws_id) (hostname : string)
    (apikey : option string) (r : DbResult) : Act unit :=
  match r with
  | DbError err =>
      ws_log_error webSocket err "relay auth failed (db query error)";;
      emit (WebSocketClose webSocket)
  | DbOk [] =>
      ws_log_info webSocket "relay auth failed (user not found)";;
      emit (WebSocketClose webSocket)
  | DbOk (row :: _) =>
      call ← defer (AuthBcryptCallback webSocket hostname);
      emit (BcryptCompare call apikey (api_key row))
  end.

Definition authenticateRelayConnection (webSocket : ws_id) : Act unit :=
  o ← the_webSocket webSocket;
  this ← this_;
  let subdomain := upgradeReq_headers o !! "x-spacekit-subdomain" in
  let username := upgradeReq_headers o !! "x-spacekit-username" in
  let apikey := upgradeReq_headers o !! "x-spacekit-apikey" in
  let hostname := Js.template subdomain +:+ "." +:+ Js.template username +:+
                  "." +:+ host (config this) in
  let existingRelay := relays this !! hostname in
  ws_set_log webSocket hostname;;
  ws_on_error webSocket;;
  match existingRelay with
  | Some _ =>
      ws_log_info webSocket "relay auth failed (already exists)";;
      emit (WebSocketClose webSocket)
  | None =>
      let query := "SELECT id, api_key FROM users WHERE username = $1" in
      call ← defer (AuthDbCallback webSocket hostname apikey);
      emit (DbRun call query [username])
  end.

(** ** The event loop *)

(** Modelled from the spec: [DynamicDNS] ([./dynamic-dns]) is not among the
    sources.  Its [upsert(hostname, "A", address)] is the DNS Sync sink, a
    fire-and-forget call; the service passes it no callback and ignores
    what it returns, so a failure of the upsert is an event of the runtime
    that no closure of the service waits for. *)
Definition DnsUpsertFailure : Type := string * string.  (* hostname, error *)

(** What the runtime delivers to the service: connections from the two
    proxy servers and the WebSocket server, replies to asynchronous calls,
    and events of a WebSocket. *)
Inductive Event :=
| TlsConnection (socket : sock_id) (hostname : string)
| NetConnection (socket : sock_id) (hostname path : string)
| WssConnection (headers : gmap string string)
| Called (call : call_id) (r : Reply)
| WsError (webSocket : ws_id) (err : string)
| WsClose (webSocket : ws_id)
| DnsUpsertFailed (failure : DnsUpsertFailure).

(** The WebSocket server allocates the object of a new connection. *)
Definition accept_WebSocket (headers : gmap string string) : Act ws_id := λ w,
  (next_ws w,
   {| service := service w;
      webSockets := <[next_ws w := fresh_WebSocket headers]> (webSockets w);
      pending := pending w; next_call := next_call w;
      next_ws := S (next_ws w); next_obj := next_obj w |},
   []).

(** Take the closure of a call out of the runtime. *)
Definition take (call : call_id) : Act (option Callback) := λ w,
  (pending w !! call,
   {| service := service w; webSockets := webSockets w;
      pending := delete call (pending w);
      next_call := next_call w; next_ws := next_ws w; next_obj := next_obj w |},
   []).

(** The 'close' listeners installed by [handleRelayConnection], run in
    the order they were added. *)
Fixpoint run_close_listeners (hostnames : list string) : Act unit :=
  match hostnames with
  | [] => mret tt
  | hostname :: rest =>
      update (with_service (set_relays (λ m, delete hostname m)));;
      run_close_listeners rest
  end.

Definition emit_close (webSocket : ws_id) : Act unit :=
  o ← the_webSocket webSocket;
  if closed o then mret tt
  else
    update_webSocket webSocket (λ o,
      {| upgradeReq_headers := upgradeReq_headers o; ws_log := ws_log o;
         on_error := on_error o; on_close := on_close o; closed := true |});;
    run_close_listeners (on_close o).

(** The 'error' listeners installed by [authenticateRelayConnection]. *)
Fixpoint run_error_listeners (n : nat) (webSocket : ws_id) (err : string) : Act unit :=
  match n with
  | O => mret tt
  | S n =>
      ws_log_error webSocket err "relay web socket error event";;
      run_error_listeners n webSocket err
  end.

Definition emit_error (webSocket : ws_id) (err : string) : Act unit :=
  o ← the_webSocket webSocket;
  run_error_listeners (on_error o) webSocket err.

(** Call a closure back with the reply of its asynchronous call. *)
Definition invoke (k : Callback) (r : Reply) : Act unit :=
  match k, r with
  | AuthDbCallback webSocket hostname apikey, DbReply r =>
      authDbCallback webSocket hostname apikey r
  | AuthBcryptCallback webSocket hostname, BcryptReply r =>
      authBcryptCallback webSocket hostname r
  | DnsResolveCallback hostname, DnsReply r =>
      dnsResolveCallback hostname r
  | _, _ => mret tt
  end.

Definition step (ev : Event) : Act unit :=
  match ev with
  | TlsConnection socket hostname => handleTlsConnection socket hostname
  | NetConnection socket hostname path => handleNetConnection socket hostname path
  | WssConnection headers =>
      webSocket ← accept_WebSocket headers;
      authenticateRelayConnection webSocket
  | Called call r =>
      k ← take call;
      match k with
      | Some k => invoke k r
      | None => mret tt
      end
  | WsError webSocket err => emit_error webSocket err
  | WsClose webSocket => emit_close webSocket
  | DnsUpsertFailed _ => mret tt  (* upsert is given no callback *)
  end.

Fixpoint run (evs : list Event) : Act unit :=
  match evs with
  | [] => mret tt
  | ev :: evs => step ev;; run evs
  end.

(** The worlds the service can be in. *)
Definition reachable (cfg : Config) (w : World) : Prop :=
  ∃ evs, world (run evs (new_World cfg)) = w.

(** The calls that reach the outside: everything but the log. *)
Definition is_log (e : Effect) : bool :=
  match e with
  | Log _ _ _ => true
  | _ => false
  end.

Definition io (es : list Effect) : list Effect :=
  List.filter (λ e, negb (is_log e)) es.

(** The messages logged right before a [webSocket.close()]: why a
    handshake was rejected. *)
Fixpoint rejections (es : list Effect) : list string :=
  match es with
  | Log _ _ msg :: ((WebSocketClose _ :: _) as rest) => msg :: rejections rest
  | _ :: rest => rejections rest
  | [] => []
  end.

Definition lookup_relay (hostname : string) (w : World) : option WebSocketRelay :=
  relays (service w) !! hostname.

(** ** The hostname a connection claims, and views of the world *)

(** The hostname a control connection claims (the template literal in
    [authenticateRelayConnection]). *)
Definition claimed_hostname (this : SpaceKitService) (headers : gmap string string) : string :=
  Js.template (headers !! "x-spacekit-subdomain") +:+ "." +:+
  Js.template (headers !! "x-spacekit-username") +:+ "." +:+
  host (config this).

Definition headers_of (webSocket : ws_id) (w : World) : gmap string string :=
  upgradeReq_headers (default (fresh_WebSocket ∅) (webSockets w !! webSocket)).

Definition registry (w : World) : gmap string WebSocketRelay := relays (service w).

(** ** Rejected handshakes: the relation *)

(** The ways a handshake is rejected: the event, the WebSocket it concerns
    and the cause that is logged. *)
Inductive rejection (w : World) : Event → ws_id → string → Prop :=
| reject_duplicate headers existing :
    registry w !! claimed_hostname (service w) headers = Some existing →
    rejection w (WssConnection headers) (next_ws w)
      "relay auth failed (already exists)"
| reject_db_error call webSocket hostname apikey err :
    pending w !! call = Some (AuthDbCallback webSocket hostname apikey) →
    rejection w (Called call (DbReply (DbError err))) webSocket
      "relay auth failed (db query error)"
| reject_unknown_user call webSocket hostname apikey :
    pending w !! call = Some (AuthDbCallback webSocket hostname apikey) →
    rejection w (Called call (DbReply (DbOk []))) webSocket
      "relay auth failed (user not found)"
| reject_bcrypt_error call webSocket hostname err :
    pending w !! call = Some (AuthBcryptCallback webSocket hostname) →
    rejection w (Called call (BcryptReply (BcryptError err))) webSocket
      "relay auth failed (bcrypt compare error)"
| reject_secret_mismatch call webSocket hostname :
    pending w !! call = Some (AuthBcryptCallback webSocket hostname) →
    rejection w (Called call (BcryptReply (BcryptOk false))) webSocket
      "relay auth failed (api key incorrect)".

(** ** Consistency of a world *)

Definition object_of (webSocket : ws_id) (w : World) : WebSocket :=
  default (fresh_WebSocket ∅) (webSockets w !! webSocket).

(** What the rest of the development observes of a WebSocket object. *)
Definition listeners (webSocket : ws_id) (w : World) : list string :=
  on_close (object_of webSocket w).

Definition is_closed (webSocket : ws_id) (w : World) : bool :=
  closed (object_of webSocket w).

Definition callback_webSocket (k : Callback) : option ws_id :=
  match k with
  | AuthDbCallback webSocket _ _ => Some webSocket
  | AuthBcryptCallback webSocket _ => Some webSocket
  | DnsResolveCallback _ => None
  end.

(** Every registered relay wraps a WebSocket that was accepted and that
    carries the 'close' listener for the relay's hostname; every waiting
    handshake closure captured an accepted WebSocket. *)
Record consistent (w : World) : Prop := {
  relay_accepted : ∀ h r, registry w !! h = Some r → (relay_webSocket r < next_ws w)%nat;
  relay_listens : ∀ h r, registry w !! h = Some r →
    h ∈ listeners (relay_webSocket r) w;
  closure_accepted : ∀ call k ws, pending w !! call = Some k →
    callback_webSocket k = Some ws → (ws < next_ws w)%nat
}.

(** ** Scenarios *)

Definition example_config : Config :=
  {| host := "spacekit.io"; api := "api"; web := "www"; dnsZone := None |}.

Definition example_config_dns : Config :=
  {| host := "spacekit.io"; api := "api"; web := "www"; dnsZone := Some "zone" |}.

(** A configuration whose API label itself has two parts. *)
Definition example_config_dotted : Config :=
  {| host := "spacekit.io"; api := "api.ann"; web := "www"; dnsZone := None |}.

Definition example_headers : gmap string string :=
  {[ "x-spacekit-subdomain" := "home"; "x-spacekit-username" := "ann";
     "x-spacekit-apikey" := "s3cret" ]}.

Definition example_headers_api : gmap string string :=
  {[ "x-spacekit-subdomain" := "api"; "x-spacekit-username" := "ann";
     "x-spacekit-apikey" := "s3cret" ]}.

Definition example_row : Row := {| row_id := 1%Z; api_key := "$2a$10$hash" |}.

(** One handshake that passes. *)
Definition accepted_handshake (headers : gmap string string) : list Event :=
  [ WssConnection headers;
    Called 0 (DbReply (DbOk [example_row]));
    Called 1 (BcryptReply (BcryptOk true)) ].

(** Two handshakes for the same hostname that both start before either
    registers: both pass the snapshot check, both pass authentication.
    The first registers; the last event is the second's verification. *)
Definition race_before_second_registration : list Event :=
  [ WssConnection example_headers;
    WssConnection example_headers;
    Called 0 (DbReply (DbOk [example_row]));
    Called 1 (DbReply (DbOk [example_row]));
    Called 2 (BcryptReply (BcryptOk true)) ].

Definition second_verification : Event := Called 3 (BcryptReply (BcryptOk true)).

Definition race : list Event :=
  race_before_second_registration ++ [second_verification].

(** The ways DNS Sync fails after a registration: the resolver calls back
    with an error, or the upsert fails. *)
Inductive dns_sync_failure (w : World) : Event → Prop :=
| resolve_failed call hostname err :
    pending w !! call = Some (DnsResolveCallback hostname) →
    dns_sync_failure w (Called call (DnsReply (DnsError err)))
| upsert_failed failure :
    dns_sync_failure w (DnsUpsertFailed failure).

(** The causes a rejection can have according to the claim about missing
    headers: duplicate, user not found, secret verification. *)
Definition stated_rejection_paths : list string :=
  [ "relay auth failed (already exists)";
    "relay auth failed (user not found)";
    "relay auth failed (bcrypt compare error)";
    "relay auth failed (api key incorrect)" ].

(** The causes in the code: the above and the failed query. *)
Definition rejection_paths : list string :=
  "relay auth failed (db query error)" :: stated_rejection_paths.

Definition rejected_only_through (paths : list string) (w : World) (ev : Event) : Prop :=
  ∀ cause, cause ∈ rejections (effects (step ev w)) → cause ∈ paths.

(** The fields of the service that are set by the constructor only. *)
Definition constants (this : SpaceKitService) : Config * string * string * option string :=
  (config this, apiHostname this, webHostname this, dynamicDNS this).

(** ** Views used beyond the claims *)

Definition callback_hostname (k : Callback) : string :=
  match k with
  | AuthDbCallback _ hostname _ => hostname
  | AuthBcryptCallback _ hostname => hostname
  | DnsResolveCallback hostname => hostname
  end.

(** The hostname captured by every closure and every 'close' listener of
    a WebSocket is the one composed from that WebSocket's own headers, and
    a resolver closure waits only when DNS Sync is configured. *)
Record tidy (w : World) : Prop := {
  dns_closure_configured : ∀ call h,
    pending w !! call = Some (DnsResolveCallback h) → is_Some (dynamicDNS (service w));
  listener_hostname : ∀ ws h,
    h ∈ listeners ws w → h = claimed_hostname (service w) (headers_of ws w);
  closure_hostname : ∀ call k ws,
    pending w !! call = Some k → callback_webSocket k = Some ws →
    callback_hostname k = claimed_hostname (service w) (headers_of ws w)
}.

(** The events of one handshake started in [w], when nothing else
    happens in between: the connection, the reply of the credential store
    and the reply of the secret verification. *)
Definition handshake (w : World) (headers : gmap string string)
    (db : DbResult) (bc : BcryptResult) : list Event :=
  [ WssConnection headers;
    Called (next_call w) (DbReply db);
    Called (S (next_call w)) (BcryptReply bc) ].

(** The same handshake whose WebSocket emits 'close' while the secret is
    being verified. *)
Definition handshake_closed_early (w : World) (headers : gmap string string)
    (db : DbResult) (bc : BcryptResult) : list Event :=
  [ WssConnection headers;
    Called (next_call w) (DbReply db);
    WsClose (next_ws w);
    Called (S (next_call w)) (BcryptReply bc) ].

(** An event that reports a passed secret verification. *)
Definition is_pass (ev : Event) : bool :=
  match ev with
  | Called _ (BcryptReply (BcryptOk true)) => true
  | _ => false
  end.

(** Calls on the resolver or on [DynamicDNS]. *)
Definition is_dns (e : Effect) : bool :=
  match e with
  | DnsResolve4 _ _ | DnsUpsert _ _ _ _ => true
  | _ => false
  end.

Definition is_uncaught (e : Effect) : bool :=
  match e with
  | Uncaught _ => true
  | _ => false
  end.

(** The socket a call of the dispatchers is about. *)
Definition socket_of (e : Effect) : option sock_id :=
  match e with
  | ApiServerConnection socket | WebServerConnection socket
  | RelayAddSocket _ socket _ _ | SocketEnd socket _ => Some socket
  | _ => None
  end.

(** A closure of the handshake of [ws] waits under [call]. *)
Definition waits_for (ws : ws_id) (w : World) (call : call_id) : Prop :=
  ∃ k, pending w !! call = Some k ∧ callback_webSocket k = Some ws.

(** A handshake has one closure waiting at a time, and while it waits its
    WebSocket has no 'close' listener yet. *)
Record single (w : World) : Prop := {
  one_closure : ∀ ws c1 c2, waits_for ws w c1 → waits_for ws w c2 → c1 = c2;
  waiting_unregistered : ∀ ws c, waits_for ws w c → listeners ws w = []
}.

(** An accepted WebSocket with no closure waiting and no listener: its
    handshake is over and it was not registered. *)
Definition idle (ws : ws_id) (w : World) : Prop :=
  (∀ c, ¬ waits_for ws w c) ∧ listeners ws w = [] ∧ (ws < next_ws w)%nat.

(** ** Unfolding computations *)

Ltac act_unfold :=
  unfold mbind, Act_bind, mret, Act_ret, emit, this_, update, defer, take,
    the_webSocket, update_webSocket, new_WebSocketRelay, accept_WebSocket,
    result, world, effects in *.

Ltac act_simpl := act_unfold; cbn -[String.append] in *.

(** ** What reaches the outside *)

Lemma io_elem_of (e : Effect) (es : list Effect) : e ∈ io es → e ∈ es.
Proof.
  induction es as [|e' es IH]; [done |].
  unfold io; cbn. destruct (is_log e'); cbn; intros Hin.
  - apply elem_of_cons. right. by apply IH.
  - apply elem_of_cons in Hin as [->|Hin]; apply elem_of_cons; [by left |].
    right. by apply IH.
Qed.

(** ** The secure dispatcher *)

Section SecureDispatch.

Variable w : World.
Variable socket : sock_id.
Variable hostname : string.

Lemma handleTlsConnection_world :
  world (handleTlsConnection socket hostname w) = w.
Proof.
  unfold handleTlsConnection. act_simpl.
  repeat case_decide; try done.
  by destruct (relays (service w) !! hostname).
Qed.

Lemma handleTlsConnection_io :
  io (effects (handleTlsConnection socket hostname w)) =
    if decide (hostname = apiHostname (service w)) then
      [ApiServerConnection socket]
    else if decide (hostname = webHostname (service w)) then
      [WebServerConnection socket]
    else match relays (service w) !! hostname with
         | Some relay => [RelayAddSocket relay socket hostname 443%Z]
         | None =>
             [SocketEnd socket
                ("HTTP/1.1 500 Relay not connected" +:+ Js.crlf +:+ Js.crlf +:+
                 "Relay not connected")]
         end.
Proof.
  unfold handleTlsConnection, io. act_simpl.
  repeat case_decide; try done.
  by destruct (relays (service w) !! hostname).
Qed.

Lemma handleTlsConnection_rejections :
  rejections (effects (handleTlsConnection socket hostname w)) = [].
Proof.
  unfold handleTlsConnection. act_simpl.
  repeat case_decide; try done.
  by destruct (relays (service w) !! hostname).
Qed.

End SecureDispatch.

(** ** The plain dispatcher *)

Lemma append_cons (c : ascii) (p rest : string) :
  String c p +:+ rest = String c (p +:+ rest).
Proof. reflexivity. Qed.

Lemma prefix_cons (c d : ascii) (p s : string) :
  String.prefix (String c p) (String d s) =
    if decide (c = d) then String.prefix p s else false.
Proof.
  cbn. destruct (ascii_dec c d); case_decide; done.
Qed.

Lemma prefix_append (p rest : string) : String.prefix p (p +:+ rest) = true.
Proof.
  induction p as [|c p IH].
  - by destruct rest.
  - rewrite append_cons, prefix_cons. by case_decide.
Qed.

Lemma prefix_split (p s : string) :
  String.prefix p s = true → ∃ rest, s = p +:+ rest.
Proof.
  revert s. induction p as [|c p IH]; intros s Hp.
  - by exists s.
  - destruct s as [|d s]; [done |].
    rewrite prefix_cons in Hp. case_decide as Hcd; [subst d | done].
    destruct (IH s Hp) as [rest ->]. by exists rest.
Qed.

(** [s.startsWith(p)] holds exactly when [s] is [p] followed by something. *)
Lemma startsWith_spec (s p : string) :
  Js.startsWith s p = true ↔ ∃ rest, s = p +:+ rest.
Proof.
  unfold Js.startsWith. split.
  - apply prefix_split.
  - intros [rest ->]. apply prefix_append.
Qed.

Section PlainDispatch.

Variable w : World.
Variable socket : sock_id.
Variable hostname path : string.

Lemma handleNetConnection_world :
  world (handleNetConnection socket hostname path w) = w.
Proof.
  unfold handleNetConnection. act_simpl.
  repeat case_decide; try done.
  destruct (Js.startsWith path _); cbn; [| done].
  by destruct (relays (service w) !! hostname).
Qed.

Lemma handleNetConnection_io :
  io (effects (handleNetConnection socket hostname path w)) =
    if decide (hostname = host (config (service w))) then
      [SocketEnd socket
         ("HTTP/1.1 301 Moved Permanently" +:+ Js.crlf +:+
          "Location: https://" +:+ webHostname (service w) +:+ path +:+
          Js.crlf +:+ Js.crlf)]
    else if decide (hostname = apiHostname (service w)
                    ∨ hostname = webHostname (service w)) then
      [SocketEnd socket
         ("HTTP/1.1 301 Moved Permanently" +:+ Js.crlf +:+
          "Location: https://" +:+ hostname +:+ path +:+
          Js.crlf +:+ Js.crlf)]
    else if Js.startsWith path "/.well-known/acme-challenge/" then
      match relays (service w) !! hostname with
      | Some relay => [RelayAddSocket relay socket hostname 80%Z]
      | None =>
          [SocketEnd socket
             ("HTTP/1.1 500 Relay not connected" +:+ Js.crlf +:+ Js.crlf +:+
              "Relay not connected")]
      end
    else
      [SocketEnd socket
         ("HTTP/1.1 500 Only ACME requests supported" +:+ Js.crlf +:+
          Js.crlf +:+ "Only ACME requests supported")].
Proof.
  unfold handleNetConnection, io. act_simpl.
  repeat case_decide; try done.
  destruct (Js.startsWith path _); cbn; [| done].
  by destruct (relays (service w) !! hostname).
Qed.

Lemma handleNetConnection_rejections :
  rejections (effects (handleNetConnection socket hostname path w)) = [].
Proof.
  unfold handleNetConnection. act_simpl.
  repeat case_decide; try done.
  destruct (Js.startsWith path _); cbn; [| done].
  by destruct (relays (service w) !! hostname).
Qed.

End PlainDispatch.

(** ** The relay handshake *)

Section Handshake.

Variable w : World.
Variable webSocket : ws_id.

Lemma authenticate_duplicate (existing : WebSocketRelay) :
  registry w !! claimed_hostname (service w) (headers_of webSocket w) = Some existing →
  let r := authenticateRelayConnection webSocket w in
  io (effects r) = [WebSocketClose webSocket]
  ∧ rejections (effects r) = ["relay auth failed (already exists)"]
  ∧ service (world r) = service w
  ∧ pending (world r) = pending w.
Proof.
  unfold registry, claimed_hostname, headers_of. intros Hdup.
  unfold authenticateRelayConnection, ws_log_info, ws_on_error, ws_set_log, io.
  act_simpl. rewrite Hdup. by cbn.
Qed.

Lemma authenticate_fresh :
  registry w !! claimed_hostname (service w) (headers_of webSocket w) = None →
  let r := authenticateRelayConnection webSocket w in
  io (effects r) =
    [DbRun (next_call w) "SELECT id, api_key FROM users WHERE username = $1"
       [headers_of webSocket w !! "x-spacekit-username"]]
  ∧ rejections (effects r) = []
  ∧ service (world r) = service w
  ∧ pending (world r) =
      <[next_call w :=
          AuthDbCallback webSocket
            (claimed_hostname (service w) (headers_of webSocket w))
            (headers_of webSocket w !! "x-spacekit-apikey")]> (pending w).
Proof.
  unfold registry, claimed_hostname, headers_of. intros Hnone.
  unfold authenticateRelayConnection, ws_log_info, ws_on_error, ws_set_log, io.
  act_simpl. rewrite Hnone. by cbn.
Qed.

Variable hostname : string.

Lemma authDbCallback_error (apikey : option string) (err : string) :
  let r := authDbCallback webSocket hostname apikey (DbError err) w in
  io (effects r) = [WebSocketClose webSocket]
  ∧ rejections (effects r) = ["relay auth failed (db query error)"]
  ∧ world r = w.
Proof. done. Qed.

Lemma authDbCallback_no_rows (apikey : option string) :
  let r := authDbCallback webSocket hostname apikey (DbOk []) w in
  io (effects r) = [WebSocketClose webSocket]
  ∧ rejections (effects r) = ["relay auth failed (user not found)"]
  ∧ world r = w.
Proof. done. Qed.

Lemma authDbCallback_row (apikey : option string) (row : Row) (rows : list Row) :
  let r := authDbCallback webSocket hostname apikey (DbOk (row :: rows)) w in
  io (effects r) = [BcryptCompare (next_call w) apikey (api_key row)]
  ∧ rejections (effects r) = []
  ∧ service (world r) = service w
  ∧ webSockets (world r) = webSockets w
  ∧ pending (world r) =
      <[next_call w := AuthBcryptCallback webSocket hostname]> (pending w).
Proof. done. Qed.

Lemma authBcryptCallback_error (err : string) :
  let r := authBcryptCallback webSocket hostname (BcryptError err) w in
  io (effects r) = [WebSocketClose webSocket]
  ∧ rejections (effects r) = ["relay auth failed (bcrypt compare error)"]
  ∧ world r = w.
Proof. done. Qed.

Lemma authBcryptCallback_mismatch :
  let r := authBcryptCallback webSocket hostname (BcryptOk false) w in
  io (effects r) = [WebSocketClose webSocket]
  ∧ rejections (effects r) = ["relay auth failed (api key incorrect)"]
  ∧ world r = w.
Proof. done. Qed.

(** Registration: the new relay is stored under the hostname whatever
    was stored there, and nothing is closed. *)
Lemma handleRelayConnection_registers :
  let r := handleRelayConnection webSocket hostname w in
  registry (world r) =
    <[hostname := {| relay_obj := next_obj w; relay_webSocket := webSocket |}]>
      (registry w)
  ∧ (∀ ws, WebSocketClose ws ∉ effects r)
  ∧ rejections (effects r) = []
  ∧ io (effects r) =
      match dynamicDNS (service w) with
      | Some _ =>
          [DnsResolve4 (next_call w)
             (api (config (service w)) +:+ "." +:+ host (config (service w)))]
      | None => []
      end.
Proof.
  unfold handleRelayConnection, ws_on_close, registry, io. act_simpl.
  destruct (dynamicDNS (service w)); cbn; repeat split; try done.
  - intros ws Hin. by apply list_elem_of_singleton in Hin.
  - intros ws Hin. by apply not_elem_of_nil in Hin.
Qed.

Lemma handleRelayConnection_effects :
  effects (handleRelayConnection webSocket hostname w) =
    match dynamicDNS (service w) with
    | Some _ =>
        [DnsResolve4 (next_call w)
           (api (config (service w)) +:+ "." +:+ host (config (service w)))]
    | None => []
    end.
Proof.
  unfold handleRelayConnection, ws_on_close. act_simpl.
  by destruct (dynamicDNS (service w)).
Qed.

Lemma authBcryptCallback_accept :
  let r := authBcryptCallback webSocket hostname (BcryptOk true) w in
  effects r =
    Log info (ws_log (default (fresh_WebSocket ∅) (webSockets w !! webSocket)))
      "relay auth success"
    :: effects (handleRelayConnection webSocket hostname w)
  ∧ world r = world (handleRelayConnection webSocket hostname w).
Proof. done. Qed.

Lemma dnsResolveCallback_effects (reply : DnsResult) :
  let r := dnsResolveCallback hostname reply w in
  world r = w
  ∧ (∀ ws, WebSocketClose ws ∉ effects r)
  ∧ rejections (effects r) = [].
Proof.
  destruct reply as [e|ads]; cbn.
  - repeat split; try done. intros ws Hin. by apply elem_of_nil in Hin.
  - unfold dnsResolveCallback. act_simpl.
    destruct (dynamicDNS (service w)); cbn; repeat split; try done;
      intros ws Hin; by apply list_elem_of_singleton in Hin.
Qed.

End Handshake.

(** ** Steps of the event loop *)

Lemma step_WssConnection (headers : gmap string string) (w : World) :
  let r := authenticateRelayConnection (next_ws w) (world (accept_WebSocket headers w)) in
  effects (step (WssConnection headers) w) = effects r
  ∧ world (step (WssConnection headers) w) = world r.
Proof. done. Qed.

Lemma accept_WebSocket_world (headers : gmap string string) (w : World) :
  let w1 := world (accept_WebSocket headers w) in
  service w1 = service w
  ∧ headers_of (next_ws w) w1 = headers
  ∧ pending w1 = pending w
  ∧ next_call w1 = next_call w
  ∧ next_obj w1 = next_obj w.
Proof.
  unfold headers_of. act_simpl. by rewrite lookup_insert_eq.
Qed.

Lemma step_Called (call : call_id) (k : Callback) (reply : Reply) (w : World) :
  pending w !! call = Some k →
  let r := invoke k reply (world (take call w)) in
  effects (step (Called call reply) w) = effects r
  ∧ world (step (Called call reply) w) = world r.
Proof.
  intros Hk. unfold step. act_simpl. by rewrite Hk.
Qed.

Lemma step_Called_unknown (call : call_id) (reply : Reply) (w : World) :
  pending w !! call = None →
  effects (step (Called call reply) w) = []
  ∧ registry (world (step (Called call reply) w)) = registry w
  ∧ webSockets (world (step (Called call reply) w)) = webSockets w.
Proof.
  intros Hk. unfold step, registry. act_simpl. by rewrite Hk.
Qed.

Lemma take_world (call : call_id) (w : World) :
  let w1 := world (take call w) in
  service w1 = service w
  ∧ webSockets w1 = webSockets w
  ∧ next_call w1 = next_call w
  ∧ next_obj w1 = next_obj w
  ∧ next_ws w1 = next_ws w.
Proof. done. Qed.

Lemma run_close_listeners_effects (hostnames : list string) (w : World) :
  effects (run_close_listeners hostnames w) = [].
Proof.
  revert w. induction hostnames as [|h hs IH]; intros w; [done |].
  cbn. act_simpl. apply IH.
Qed.

Lemma run_close_listeners_registry (hostnames : list string) (w : World) (h : string) :
  registry (world (run_close_listeners hostnames w)) !! h =
    if decide (h ∈ hostnames) then None else registry w !! h.
Proof.
  revert w. induction hostnames as [|h' hs IH]; intros w.
  - cbn. case_decide as Hin; [by apply elem_of_nil in Hin | done].
  - cbn. act_simpl. rewrite IH. unfold registry; cbn.
    destruct (decide (h ∈ hs)) as [Hhs|Hhs], (decide (h ∈ h' :: hs)) as [Hin|Hin];
      try done.
    + exfalso. apply Hin. by apply elem_of_cons; right.
    + apply elem_of_cons in Hin as [->|Hin]; [| done]. apply lookup_delete_eq.
    + apply lookup_delete_ne. intros ->. apply Hin, elem_of_cons. by left.
Qed.

Lemma run_close_listeners_rest (hostnames : list string) (w : World) :
  let w1 := world (run_close_listeners hostnames w) in
  webSockets w1 = webSockets w
  ∧ pending w1 = pending w
  ∧ next_call w1 = next_call w ∧ next_ws w1 = next_ws w ∧ next_obj w1 = next_obj w
  ∧ config (service w1) = config (service w)
  ∧ apiHostname (service w1) = apiHostname (service w)
  ∧ webHostname (service w1) = webHostname (service w)
  ∧ dynamicDNS (service w1) = dynamicDNS (service w).
Proof.
  revert w. induction hostnames as [|h hs IH]; intros w; [done |].
  cbn. act_simpl. apply (IH (with_service (set_relays (λ m, delete h m)) w)).
Qed.

Lemma run_error_listeners_only_log (n : nat) (webSocket : ws_id) (err : string) (w : World) :
  io (effects (run_error_listeners n webSocket err w)) = []
  ∧ world (run_error_listeners n webSocket err w) = w
  ∧ rejections (effects (run_error_listeners n webSocket err w)) = [].
Proof.
  induction n as [|n (IHe & IHw & IHr)]; [done |].
  cbn. unfold ws_log_error. act_simpl. repeat split; [exact IHe | exact IHw |].
  destruct n; [done |]. exact IHr.
Qed.

Lemma emit_error_only_log (webSocket : ws_id) (err : string) (w : World) :
  io (effects (emit_error webSocket err w)) = []
  ∧ world (emit_error webSocket err w) = w
  ∧ rejections (effects (emit_error webSocket err w)) = [].
Proof.
  pose proof (run_error_listeners_only_log
    (on_error (default (fresh_WebSocket ∅) (webSockets w !! webSocket)))
    webSocket err w) as H.
  unfold emit_error. act_simpl. exact H.
Qed.

Lemma emit_close_effects (webSocket : ws_id) (w : World) :
  effects (emit_close webSocket w) = [].
Proof.
  pose proof (run_close_listeners_effects
    (on_close (default (fresh_WebSocket ∅) (webSockets w !! webSocket)))) as H.
  unfold emit_close. act_simpl. destruct (closed _); cbn; [done |]. apply H.
Qed.

(** ** Rejected handshakes *)

(** The registry is written by an accepted secret verification and by a
    'close' event, and by nothing else. *)
Lemma registry_frame (ev : Event) (w : World) :
  (∀ call, ev ≠ Called call (BcryptReply (BcryptOk true))) →
  (∀ webSocket, ev ≠ WsClose webSocket) →
  registry (world (step ev w)) = registry w.
Proof.
  intros Haccept Hclose. destruct ev as [s h|s h p|hd|call r|ws e|ws|failure].
  - cbn [step]. by rewrite handleTlsConnection_world.
  - cbn [step]. by rewrite handleNetConnection_world.
  - cbn [step].
    unfold authenticateRelayConnection, ws_log_info, ws_on_error, ws_set_log, registry.
    act_simpl. by destruct (relays (service w) !! _).
  - destruct (pending w !! call) as [k|] eqn:Hk.
    + destruct (step_Called call k r w Hk) as [_ ->]. unfold registry.
      destruct k as [ws h a|ws h|h], r as [[e|[|row rows]]|[e|[|]]|[e|ads]];
        try done.
      * by destruct (Haccept call).
      * cbn [invoke].
        by destruct (dnsResolveCallback_effects (world (take call w)) h (DnsOk ads))
          as (-> & _).
    + by apply step_Called_unknown.
  - cbn [step]. by destruct (emit_error_only_log ws e w) as (_ & -> & _).
  - by destruct (Hclose ws).
  - done.
Qed.

(** The service closes a WebSocket only to reject its handshake. *)
Lemma close_only_on_rejection (ev : Event) (w : World) (webSocket : ws_id) :
  WebSocketClose webSocket ∈ io (effects (step ev w)) →
  ∃ cause, rejection w ev webSocket cause.
Proof.
  destruct ev as [s h|s h p|hd|call r|ws e|ws|failure]; cbn [step].
  - rewrite handleTlsConnection_io. intros Hin.
    repeat case_decide; try destruct (relays (service w) !! h);
      by apply list_elem_of_singleton in Hin.
  - rewrite handleNetConnection_io. intros Hin.
    repeat case_decide; try destruct (Js.startsWith p _);
      try destruct (relays (service w) !! h);
      by apply list_elem_of_singleton in Hin.
  - destruct (step_WssConnection hd w) as [He _]. cbn [step] in He. rewrite He.
    destruct (accept_WebSocket_world hd w) as (Hs & Hh & _ & Hc & _).
    set (w1 := world (accept_WebSocket hd w)) in *.
    destruct (registry w1 !! claimed_hostname (service w1) (headers_of (next_ws w) w1))
      as [existing|] eqn:Hreg.
    + destruct (authenticate_duplicate w1 (next_ws w) existing Hreg) as (-> & _).
      intros Hin. apply list_elem_of_singleton in Hin. injection Hin as ->.
      eexists. eapply reject_duplicate.
      unfold registry in *. rewrite <- Hs, <- Hh at 1. exact Hreg.
    + destruct (authenticate_fresh w1 (next_ws w) Hreg) as (-> & _).
      intros Hin. by apply list_elem_of_singleton in Hin.
  - destruct (pending w !! call) as [k|] eqn:Hk.
    + destruct (step_Called call k r w Hk) as [He _]. cbn [step] in He. rewrite He.
      destruct k as [ws h a|ws h|h], r as [[e|[|row rows]]|[e|[|]]|[e|ads]];
        try (intros Hin; by apply elem_of_nil in Hin);
        try (intros Hin; apply list_elem_of_singleton in Hin;
             first [discriminate Hin | injection Hin as ->];
             eexists; by econstructor).
      * cbn [invoke].
        destruct (authBcryptCallback_accept (world (take call w)) ws h) as [-> _].
        rewrite handleRelayConnection_effects.
        destruct (dynamicDNS _); cbn; intros Hin.
        -- by apply list_elem_of_singleton in Hin.
        -- by apply elem_of_nil in Hin.
      * cbn [invoke]. intros Hin. apply io_elem_of in Hin.
        by destruct (dnsResolveCallback_effects (world (take call w)) h (DnsOk ads))
          as (_ & Hno & _); destruct (Hno webSocket).
    + destruct (step_Called_unknown call r w Hk) as [He _]. cbn [step] in He.
      rewrite He. intros Hin. by apply elem_of_nil in Hin.
  - destruct (emit_error_only_log ws e w) as (-> & _).
    intros Hin. by apply elem_of_nil in Hin.
  - rewrite emit_close_effects. intros Hin. by apply elem_of_nil in Hin.
  - intros Hin. by apply elem_of_nil in Hin.
Qed.

(** ** Invariants of the reachable worlds *)

Lemma new_World_consistent (cfg : Config) : consistent (new_World cfg).
Proof.
  split; unfold registry; cbn; intros *; by rewrite lookup_empty.
Qed.

Ltac ws_cases ws' ws :=
  destruct (decide (ws' = ws)) as [->|?];
  [ repeat (rewrite lookup_insert_eq; cbn) | rewrite ?lookup_insert_ne by done ];
  try done.

Lemma accept_observe (headers : gmap string string) (w : World) :
  let w1 := world (accept_WebSocket headers w) in
  registry w1 = registry w
  ∧ next_ws w1 = S (next_ws w)
  ∧ pending w1 = pending w
  ∧ (∀ ws, ws ≠ next_ws w → listeners ws w1 = listeners ws w)
  ∧ (∀ ws, ws ≠ next_ws w → is_closed ws w1 = is_closed ws w).
Proof.
  unfold registry, listeners, is_closed, object_of. act_simpl.
  repeat split; intros ws Hne; by rewrite lookup_insert_ne.
Qed.

Lemma authenticate_observe (webSocket : ws_id) (w : World) :
  let w1 := world (authenticateRelayConnection webSocket w) in
  registry w1 = registry w
  ∧ next_ws w1 = next_ws w
  ∧ (∀ ws, listeners ws w1 = listeners ws w)
  ∧ (∀ ws, is_closed ws w1 = is_closed ws w)
  ∧ (∀ call k, pending w1 !! call = Some k →
       pending w !! call = Some k ∨ callback_webSocket k = Some webSocket).
Proof.
  unfold authenticateRelayConnection, ws_log_info, ws_on_error, ws_set_log.
  unfold registry, listeners, is_closed, object_of. act_simpl.
  destruct (relays (service w) !! _); cbn; repeat split; try done.
  all: try (intros ws; by ws_cases ws webSocket).
  - by left.
  - intros call k Hk. apply lookup_insert_Some in Hk as [[_ <-]|[_ Hk]];
      [by right | by left].
Qed.

Lemma handleRelayConnection_observe (webSocket : ws_id) (hostname : string) (w : World) :
  let w1 := world (handleRelayConnection webSocket hostname w) in
  next_ws w1 = next_ws w
  ∧ (∀ ws, listeners ws w1 =
       if decide (ws = webSocket) then listeners ws w ++ [hostname]
       else listeners ws w)
  ∧ (∀ ws, is_closed ws w1 = is_closed ws w)
  ∧ (∀ call k, pending w1 !! call = Some k →
       pending w !! call = Some k ∨ callback_webSocket k = None).
Proof.
  unfold handleRelayConnection, ws_on_close.
  unfold listeners, is_closed, object_of. act_simpl.
  destruct (dynamicDNS (service w)); cbn; repeat split; try done.
  all: try (intros ws; case_decide; by ws_cases ws webSocket).
  all: try (intros ws; by ws_cases ws webSocket).
  - intros call k Hk. apply lookup_insert_Some in Hk as [[_ <-]|[_ Hk]];
      [by right | by left].
  - by left.
Qed.

Lemma emit_close_observe (webSocket : ws_id) (w : World) :
  let w1 := world (emit_close webSocket w) in
  next_ws w1 = next_ws w
  ∧ pending w1 = pending w
  ∧ (∀ ws, listeners ws w1 = listeners ws w)
  ∧ (∀ h, registry w1 !! h =
       if is_closed webSocket w then registry w !! h
       else if decide (h ∈ listeners webSocket w) then None
       else registry w !! h)
  ∧ apiHostname (service w1) = apiHostname (service w)
  ∧ webHostname (service w1) = webHostname (service w)
  ∧ constants (service w1) = constants (service w).
Proof.
  unfold emit_close, listeners, is_closed, object_of, constants. act_simpl.
  destruct (closed _) eqn:Hclosed; cbn; [done |].
  set (o := default (fresh_WebSocket ∅) (webSockets w !! webSocket)) in *.
  set (w0 := with_webSockets _ w).
  pose proof (run_close_listeners_rest (on_close o) w0)
    as (Hws & Hp & _ & Hn & _ & Hc & Ha & Hb & Hd).
  pose proof (run_close_listeners_registry (on_close o) w0) as Hreg.
  act_simpl. rewrite Hws, Hp, Hn, Hc, Ha, Hb, Hd. repeat split; try done.
  intros ws. subst o. by ws_cases ws webSocket.
Qed.

Lemma take_consistent (call : call_id) (w : World) :
  consistent w → consistent (world (take call w)).
Proof.
  intros [Hacc Hlis Hclo]. split; [exact Hacc | exact Hlis |].
  intros c k ws Hk. change (delete call (pending w) !! c = Some k) in Hk.
  apply lookup_delete_Some in Hk as [_ Hk]. by eapply Hclo.
Qed.

Lemma handleRelayConnection_consistent (webSocket : ws_id) (hostname : string) (w : World) :
  (webSocket < next_ws w)%nat →
  consistent w → consistent (world (handleRelayConnection webSocket hostname w)).
Proof.
  intros Hlt [Hacc Hlis Hclo].
  destruct (handleRelayConnection_registers w webSocket hostname) as (Hreg & _).
  destruct (handleRelayConnection_observe webSocket hostname w) as (Hn & Hl & _ & Hp).
  cbn zeta in *. split.
  - intros h r. rewrite Hreg, Hn. intros Hr.
    apply lookup_insert_Some in Hr as [[_ <-]|[_ Hr]]; [done | by eapply Hacc].
  - intros h r. rewrite Hreg. intros Hr.
    rewrite Hl. apply lookup_insert_Some in Hr as [[<- <-]|[_ Hr]]; cbn.
    + rewrite decide_True by done. apply elem_of_app. right. by apply list_elem_of_singleton.
    + case_decide; [apply elem_of_app; left |]; by apply Hlis.
  - intros call k ws Hk Hws. rewrite Hn.
    destruct (Hp call k Hk) as [Hold|Hnone]; [by eapply Hclo | congruence].
Qed.

Lemma invoke_consistent (k : Callback) (reply : Reply) (w : World) :
  (∀ ws, callback_webSocket k = Some ws → (ws < next_ws w)%nat) →
  consistent w → consistent (world (invoke k reply w)).
Proof.
  intros Hk Hw.
  destruct k as [ws h a|ws h|h], reply as [[e|[|row rows]]|[e|[|]]|[e|ads]];
    try exact Hw.
  - destruct Hw as [Hacc Hlis Hclo]. split; [exact Hacc | exact Hlis |].
    intros call k ws' Hcall Hws'.
    change (<[next_call w := AuthBcryptCallback ws h]> (pending w) !! call = Some k) in Hcall.
    apply lookup_insert_Some in Hcall as [[_ <-]|[_ Hcall]].
    + cbn in Hws'. injection Hws' as <-. by apply Hk.
    + by eapply Hclo.
  - change (consistent (world (handleRelayConnection ws h w))).
    apply handleRelayConnection_consistent; [by apply Hk | done].
  - cbn [invoke].
    by destruct (dnsResolveCallback_effects w h (DnsOk ads)) as (-> & _).
Qed.

Lemma step_consistent (ev : Event) (w : World) :
  consistent w → consistent (world (step ev w)).
Proof.
  intros Hw. destruct ev as [s h|s h p|hd|call r|ws e|ws|failure].
  - cbn [step]. by rewrite handleTlsConnection_world.
  - cbn [step]. by rewrite handleNetConnection_world.
  - destruct (step_WssConnection hd w) as [_ ->].
    destruct (accept_observe hd w) as (Hr1 & Hn1 & Hp1 & Hl1 & _).
    set (w1 := world (accept_WebSocket hd w)) in *.
    destruct (authenticate_observe (next_ws w) w1) as (Hr2 & Hn2 & Hl2 & _ & Hp2).
    cbn zeta in *. destruct Hw as [Hacc Hlis Hclo]. split.
    + intros h r. rewrite Hr2, Hr1, Hn2, Hn1. intros Hr.
      specialize (Hacc h r Hr). lia.
    + intros h r. rewrite Hr2, Hr1. intros Hr.
      rewrite Hl2, Hl1; [by apply Hlis |].
      specialize (Hacc h r Hr). lia.
    + intros call k ws Hk Hws. rewrite Hn2, Hn1.
      destruct (Hp2 call k Hk) as [Hold|Hnew].
      * rewrite Hp1 in Hold. specialize (Hclo call k ws Hold Hws). lia.
      * rewrite Hws in Hnew. injection Hnew as ->. lia.
  - pose proof (take_consistent call w Hw) as Hw1.
    destruct (pending w !! call) as [k|] eqn:Hk.
    + destruct (step_Called call k r w Hk) as [_ ->].
      apply invoke_consistent; [| done].
      intros ws Hws. destruct Hw as [_ _ Hclo]. by eapply Hclo.
    + unfold step. act_simpl. by rewrite Hk.
  - cbn [step]. by destruct (emit_error_only_log ws e w) as (_ & -> & _).
  - cbn [step]. destruct (emit_close_observe ws w) as (Hn & Hp & Hl & Hreg & _).
    cbn zeta in *. destruct Hw as [Hacc Hlis Hclo]. split.
    + intros h r. rewrite Hreg, Hn. intros Hr. apply (Hacc h).
      destruct (is_closed ws w); [done |]. by case_decide.
    + intros h r. rewrite Hreg. intros Hr.
      rewrite Hl. apply Hlis.
      destruct (is_closed ws w); [done |]. by case_decide.
    + intros call k ws'. rewrite Hp, Hn. apply Hclo.
  - exact Hw.
Qed.

Lemma run_consistent (evs : list Event) (w : World) :
  consistent w → consistent (world (run evs w)).
Proof.
  revert w. induction evs as [|ev evs IH]; intros w Hw; [exact Hw |].
  change (consistent (world (run evs (world (step ev w))))).
  by apply IH, step_consistent.
Qed.

Lemma reachable_consistent (cfg : Config) (w : World) :
  reachable cfg w → consistent w.
Proof.
  intros [evs <-]. apply run_consistent, new_World_consistent.
Qed.

(** The constructor's fields never change. *)
Lemma authenticate_service (webSocket : ws_id) (w : World) :
  service (world (authenticateRelayConnection webSocket w)) = service w.
Proof.
  destruct (registry w !! claimed_hostname (service w) (headers_of webSocket w))
    as [existing|] eqn:Hreg.
  - by destruct (authenticate_duplicate w webSocket existing Hreg) as (_ & _ & -> & _).
  - by destruct (authenticate_fresh w webSocket Hreg) as (_ & _ & -> & _).
Qed.

Lemma handleRelayConnection_constants (webSocket : ws_id) (hostname : string) (w : World) :
  constants (service (world (handleRelayConnection webSocket hostname w))) =
    constants (service w).
Proof.
  unfold handleRelayConnection, ws_on_close. act_simpl.
  by destruct (dynamicDNS (service w)).
Qed.

Lemma invoke_constants (k : Callback) (reply : Reply) (w : World) :
  constants (service (world (invoke k reply w))) = constants (service w).
Proof.
  destruct k as [ws h a|ws h|h], reply as [[e|[|row rows]]|[e|[|]]|[e|ads]];
    try done.
  - cbn [invoke]. destruct (authBcryptCallback_accept w ws h) as [_ ->].
    apply handleRelayConnection_constants.
  - cbn [invoke].
    by destruct (dnsResolveCallback_effects w h (DnsOk ads)) as (-> & _).
Qed.

Lemma step_constants (ev : Event) (w : World) :
  constants (service (world (step ev w))) = constants (service w).
Proof.
  destruct ev as [s h|s h p|hd|call r|ws e|ws|failure].
  - cbn [step]. by rewrite handleTlsConnection_world.
  - cbn [step]. by rewrite handleNetConnection_world.
  - destruct (step_WssConnection hd w) as [_ ->]. by rewrite authenticate_service.
  - destruct (pending w !! call) as [k|] eqn:Hk.
    + destruct (step_Called call k r w Hk) as [_ ->]. by rewrite invoke_constants.
    + unfold step. act_simpl. by rewrite Hk.
  - cbn [step]. by destruct (emit_error_only_log ws e w) as (_ & -> & _).
  - cbn [step]. by destruct (emit_close_observe ws w) as (_ & _ & _ & _ & _ & _ & ->).
  - done.
Qed.

Lemma run_constants (evs : list Event) (w : World) :
  constants (service (world (run evs w))) = constants (service w).
Proof.
  revert w. induction evs as [|ev evs IH]; intros w; [done |].
  change (constants (service (world (run evs (world (step ev w))))) =
          constants (service w)).
  by rewrite IH, step_constants.
Qed.

(** In every reachable world the API and Web hostnames are the ones the
    constructor composed from the configuration. *)
Lemma reachable_service (cfg : Config) (w : World) :
  reachable cfg w →
  config (service w) = cfg
  ∧ apiHostname (service w) = api cfg +:+ "." +:+ host cfg
  ∧ webHostname (service w) = web cfg +:+ "." +:+ host cfg
  ∧ dynamicDNS (service w) = (if Js.truthy (dnsZone cfg) then dnsZone cfg else None).
Proof.
  intros [evs <-]. pose proof (run_constants evs (new_World cfg)) as Hc.
  unfold constants in Hc. cbn in Hc. by injection Hc as -> -> -> ->.
Qed.

(** Every cause logged before a [webSocket.close()] is the cause of a
    rejected handshake. *)
Lemma step_rejections (ev : Event) (w : World) (cause : string) :
  cause ∈ rejections (effects (step ev w)) →
  ∃ webSocket, rejection w ev webSocket cause.
Proof.
  destruct ev as [s h|s h p|hd|call r|ws e|ws|failure]; cbn [step].
  - rewrite handleTlsConnection_rejections. intros Hin. by apply elem_of_nil in Hin.
  - rewrite handleNetConnection_rejections. intros Hin. by apply elem_of_nil in Hin.
  - destruct (step_WssConnection hd w) as [He _]. cbn [step] in He. rewrite He.
    destruct (accept_WebSocket_world hd w) as (Hs & Hh & _).
    set (w1 := world (accept_WebSocket hd w)) in *.
    destruct (registry w1 !! claimed_hostname (service w1) (headers_of (next_ws w) w1))
      as [existing|] eqn:Hreg.
    + destruct (authenticate_duplicate w1 (next_ws w) existing Hreg) as (_ & -> & _).
      intros Hin. apply list_elem_of_singleton in Hin as ->.
      eexists. eapply reject_duplicate.
      unfold registry in *. rewrite <- Hs, <- Hh at 1. exact Hreg.
    + destruct (authenticate_fresh w1 (next_ws w) Hreg) as (_ & -> & _).
      intros Hin. by apply elem_of_nil in Hin.
  - destruct (pending w !! call) as [k|] eqn:Hk.
    + destruct (step_Called call k r w Hk) as [He _]. cbn [step] in He. rewrite He.
      destruct k as [ws h a|ws h|h], r as [[e|[|row rows]]|[e|[|]]|[e|ads]];
        try (intros Hin; by apply elem_of_nil in Hin);
        try (intros Hin; apply list_elem_of_singleton in Hin as ->;
             eexists; by econstructor).
      * cbn [invoke].
        destruct (authBcryptCallback_accept (world (take call w)) ws h) as [-> _].
        rewrite handleRelayConnection_effects.
        destruct (dynamicDNS _); cbn; intros Hin; by apply elem_of_nil in Hin.
      * cbn [invoke].
        destruct (dnsResolveCallback_effects (world (take call w)) h (DnsOk ads))
          as (_ & _ & ->).
        intros Hin. by apply elem_of_nil in Hin.
    + destruct (step_Called_unknown call r w Hk) as [He _]. cbn [step] in He.
      rewrite He. intros Hin. by apply elem_of_nil in Hin.
  - destruct (emit_error_only_log ws e w) as (_ & _ & ->).
    intros Hin. by apply elem_of_nil in Hin.
  - rewrite emit_close_effects. intros Hin. by apply elem_of_nil in Hin.
  - intros Hin. by apply elem_of_nil in Hin.
Qed.

(** A 'close' event of an open WebSocket runs its listeners: every
    hostname they captured is deleted from the registry, whichever relay
    is stored there. *)
Lemma close_deletes_listened_hostname (webSocket : ws_id) (hostname : string) (w : World) :
  is_closed webSocket w = false →
  hostname ∈ listeners webSocket w →
  lookup_relay hostname (world (step (WsClose webSocket) w)) = None.
Proof.
  intros Hopen Hin. cbn [step].
  destruct (emit_close_observe webSocket w) as (_ & _ & _ & Hreg & _).
  unfold lookup_relay. fold (registry (world (emit_close webSocket w))).
  rewrite Hreg, Hopen. by rewrite decide_True.
Qed.

Example crlf_bytes :
  nat_of_ascii <$> String.list_ascii_of_string Js.crlf = [13; 10]%nat.
Proof. reflexivity. Qed.

Example wrong_secret_registers_nothing :
  let r := run [ WssConnection example_headers;
                 Called 0 (DbReply (DbOk [example_row]));
                 Called 1 (BcryptReply (BcryptOk false)) ]
               (new_World example_config) in
  registry (world r) = ∅
  ∧ io (effects r) =
      [ DbRun 0 "SELECT id, api_key FROM users WHERE username = $1" [Some "ann"];
        BcryptCompare 1 (Some "s3cret") "$2a$10$hash";
        WebSocketClose 0 ]
  ∧ rejections (effects r) = ["relay auth failed (api key incorrect)"].
Proof. vm_compute. done. Qed.

Example unknown_user_registers_nothing :
  let r := run [ WssConnection example_headers; Called 0 (DbReply (DbOk [])) ]
               (new_World example_config) in
  registry (world r) = ∅
  ∧ io (effects r) =
      [ DbRun 0 "SELECT id, api_key FROM users WHERE username = $1" [Some "ann"];
        WebSocketClose 0 ]
  ∧ rejections (effects r) = ["relay auth failed (user not found)"].
Proof. vm_compute. done. Qed.

Example missing_subdomain_registers_undefined :
  let headers : gmap string string :=
    {[ "x-spacekit-username" := "ann"; "x-spacekit-apikey" := "s3cret" ]} in
  let r := run (accepted_handshake headers) (new_World example_config) in
  lookup_relay "undefined.ann.spacekit.io" (world r) =
    Some {| relay_obj := 0; relay_webSocket := 0 |}
  ∧ io (effects r) =
      [ DbRun 0 "SELECT id, api_key FROM users WHERE username = $1" [Some "ann"];
        BcryptCompare 1 (Some "s3cret") "$2a$10$hash" ].
Proof. vm_compute. done. Qed.

Example duplicate_claim_is_closed :
  let r := run (accepted_handshake example_headers ++ [WssConnection example_headers])
               (new_World example_config) in
  lookup_relay "home.ann.spacekit.io" (world r) =
    Some {| relay_obj := 0; relay_webSocket := 0 |}
  ∧ io (effects r) =
      [ DbRun 0 "SELECT id, api_key FROM users WHERE username = $1" [Some "ann"];
        BcryptCompare 1 (Some "s3cret") "$2a$10$hash";
        WebSocketClose 1 ]
  ∧ rejections (effects r) = ["relay auth failed (already exists)"].
Proof. vm_compute. done. Qed.

(** ** The claims *)

(** C1 (the code departs from it): two handshakes for one hostname that
    both pass authentication.  When the second reaches registration the
    registry already holds the first relay for the hostname; the second is
    stored over it, becomes the relay [lookup] returns, and no
    [webSocket.close()] is issued for either connection. *)
Theorem racing_handshake_replaces_registered_relay :
  let hostname := "home.ann.spacekit.io" in
  let w5 := world (run race_before_second_registration (new_World example_config)) in
  let r6 := step second_verification w5 in
  pending w5 !! 3%nat = Some (AuthBcryptCallback 1 hostname)
  ∧ lookup_relay hostname w5 = Some {| relay_obj := 0; relay_webSocket := 0 |}
  ∧ lookup_relay hostname (world r6) = Some {| relay_obj := 1; relay_webSocket := 1 |}
  ∧ io (effects r6) = []
  ∧ (∀ ws, WebSocketClose ws ∉ effects (run race (new_World example_config))).
Proof.
  vm_compute. repeat split; try reflexivity.
  intros ws Hin.
  repeat (apply elem_of_cons in Hin as [Hin|Hin]; [discriminate Hin |]).
  by apply elem_of_nil in Hin.
Qed.

(** C2 (the code departs from it): after the race above the registry holds
    the relay of the second WebSocket; the 'close' event of the first
    WebSocket, whose relay is no longer the stored one, deletes that
    entry, and a secure connection for the hostname is then refused
    although the second relay is still connected. *)
Theorem late_close_deletes_newer_relay :
  let hostname := "home.ann.spacekit.io" in
  let w6 := world (run race (new_World example_config)) in
  let w7 := world (step (WsClose 0) w6) in
  lookup_relay hostname w6 = Some {| relay_obj := 1; relay_webSocket := 1 |}
  ∧ lookup_relay hostname w7 = None
  ∧ is_closed 1 w7 = false
  ∧ io (effects (handleTlsConnection 9 hostname w7)) =
      [SocketEnd 9 ("HTTP/1.1 500 Relay not connected" +:+ Js.crlf +:+ Js.crlf +:+
                    "Relay not connected")].
Proof. vm_compute. done. Qed.

(** C3: a secure connection whose hostname is the API hostname is handed
    to the API server, and one whose hostname is the Web hostname to the
    API or Web server, whatever the registry holds for that hostname: no
    relay is asked to add the socket. *)
Theorem own_hostnames_precede_relay_lookup
    (w : World) (socket : sock_id) (hostname : string)
    (Hown : hostname = apiHostname (service w) ∨ hostname = webHostname (service w)) :
  io (effects (handleTlsConnection socket hostname w)) =
    [if decide (hostname = apiHostname (service w))
     then ApiServerConnection socket else WebServerConnection socket]
  ∧ ∀ relay s h port,
      RelayAddSocket relay s h port ∉ io (effects (handleTlsConnection socket hostname w)).
Proof.
  rewrite handleTlsConnection_io.
  destruct (decide (hostname = apiHostname (service w))) as [Hapi|Hapi].
  - split; [done |]. intros relay s h port Hin.
    by apply list_elem_of_singleton in Hin.
  - destruct Hown as [Hown|Hown]; [done |]. rewrite decide_True by done.
    split; [done |]. intros relay s h port Hin.
    by apply list_elem_of_singleton in Hin.
Qed.

Lemma own_hostnames_precede_relay_lookup_witness :
  let w := world (run (accepted_handshake example_headers_api)
                      (new_World example_config_dotted)) in
  lookup_relay "api.ann.spacekit.io" w = Some {| relay_obj := 0; relay_webSocket := 0 |}
  ∧ io (effects (handleTlsConnection 7 "api.ann.spacekit.io" w)) = [ApiServerConnection 7].
Proof.
  split; [vm_compute; reflexivity |].
  exact (proj1 (own_hostnames_precede_relay_lookup
    (world (run (accepted_handshake example_headers_api)
                (new_World example_config_dotted)))
    7 "api.ann.spacekit.io" (or_introl eq_refl))).
Defined.

(** C4: every rejection of a handshake (duplicate hostname, credential
    store failure, unknown user, verification failure, secret mismatch)
    does nothing towards the outside but [webSocket.close()] on the
    connection, logs its cause, and leaves the registry as it was. *)
Theorem rejected_handshake_closes_and_registers_nothing
    (w : World) (ev : Event) (webSocket : ws_id) (cause : string)
    (Hrej : rejection w ev webSocket cause) :
  io (effects (step ev w)) = [WebSocketClose webSocket]
  ∧ rejections (effects (step ev w)) = [cause]
  ∧ registry (world (step ev w)) = registry w.
Proof.
  split; [| split].
  3: { apply registry_frame; intros ? ->; inversion Hrej. }
  all: destruct Hrej as [hd existing Hdup|call ws h a e Hk|call ws h a Hk
                        |call ws h e Hk|call ws h Hk].
  all: try (destruct (step_Called call _ (DbReply (DbError e)) w Hk) as [-> _]; done).
  all: try (destruct (step_Called call _ (DbReply (DbOk [])) w Hk) as [-> _]; done).
  all: try (destruct (step_Called call _ (BcryptReply (BcryptError e)) w Hk) as [-> _]; done).
  all: try (destruct (step_Called call _ (BcryptReply (BcryptOk false)) w Hk) as [-> _]; done).
  all: destruct (step_WssConnection hd w) as [-> _];
    destruct (accept_WebSocket_world hd w) as (Hs & Hh & _);
    set (w1 := world (accept_WebSocket hd w)) in *;
    assert (registry w1 !! claimed_hostname (service w1) (headers_of (next_ws w) w1)
            = Some existing) as Hdup1
      by (unfold registry in *; by rewrite Hs, Hh);
    by destruct (authenticate_duplicate w1 (next_ws w) existing Hdup1) as (? & ? & _).
Qed.

Lemma rejected_handshake_closes_and_registers_nothing_witness :
  let w := world (run [ WssConnection example_headers;
                        Called 0 (DbReply (DbOk [example_row])) ]
                      (new_World example_config)) in
  let ev := Called 1 (BcryptReply (BcryptOk false)) in
  io (effects (step ev w)) = [WebSocketClose 0]
  ∧ rejections (effects (step ev w)) = ["relay auth failed (api key incorrect)"]
  ∧ registry (world (step ev w)) = registry w.
Proof.
  apply rejected_handshake_closes_and_registers_nothing.
  apply (reject_secret_mismatch _ 1%nat 0%nat "home.ann.spacekit.io").
  vm_compute. reflexivity.
Defined.

(** C5: a secure connection whose hostname is neither the API hostname
    nor the Web hostname and has no registered relay gets exactly
    [socket.end] of the literal 500 "Relay not connected" response. *)
Theorem unregistered_hostname_gets_relay_not_connected
    (w : World) (socket : sock_id) (hostname : string)
    (Hapi : hostname ≠ apiHostname (service w))
    (Hweb : hostname ≠ webHostname (service w))
    (Hnone : lookup_relay hostname w = None) :
  io (effects (handleTlsConnection socket hostname w)) =
    [SocketEnd socket
       ("HTTP/1.1 500 Relay not connected" +:+ Js.crlf +:+ Js.crlf +:+
        "Relay not connected")].
Proof.
  rewrite handleTlsConnection_io. unfold lookup_relay in Hnone.
  by rewrite !decide_False, Hnone by done.
Qed.

Lemma unregistered_hostname_gets_relay_not_connected_witness :
  io (effects (handleTlsConnection 4 "home.ann.spacekit.io" (new_World example_config))) =
    [SocketEnd 4
       ("HTTP/1.1 500 Relay not connected" +:+ Js.crlf +:+ Js.crlf +:+
        "Relay not connected")].
Proof.
  apply unregistered_hostname_gets_relay_not_connected.
  - vm_compute. discriminate.
  - vm_compute. discriminate.
  - vm_compute. reflexivity.
Defined.

(** C6: a plain connection whose hostname is not the base host, the API
    hostname or the Web hostname: if the path does not start with
    [/.well-known/acme-challenge/] the socket gets the literal 500 "Only
    ACME requests supported" response whatever the registry holds; if it
    does and a relay is registered for the hostname, that relay is asked
    to add the socket for the hostname and port 80. *)
Theorem plain_connection_acme_gate
    (w : World) (socket : sock_id) (hostname path : string)
    (Hbase : hostname ≠ host (config (service w)))
    (Hapi : hostname ≠ apiHostname (service w))
    (Hweb : hostname ≠ webHostname (service w)) :
  ((∀ rest, path ≠ "/.well-known/acme-challenge/" +:+ rest) →
     io (effects (handleNetConnection socket hostname path w)) =
       [SocketEnd socket
          ("HTTP/1.1 500 Only ACME requests supported" +:+ Js.crlf +:+ Js.crlf +:+
           "Only ACME requests supported")])
  ∧ (∀ rest relay,
       path = "/.well-known/acme-challenge/" +:+ rest →
       lookup_relay hostname w = Some relay →
       io (effects (handleNetConnection socket hostname path w)) =
         [RelayAddSocket relay socket hostname 80%Z]).
Proof.
  rewrite handleNetConnection_io.
  rewrite decide_False by done.
  rewrite decide_False by (by intros [?|?]).
  split.
  - intros Hnot.
    destruct (Js.startsWith path "/.well-known/acme-challenge/") eqn:Hstart; [| done].
    apply startsWith_spec in Hstart as [rest ->]. by destruct (Hnot rest).
  - intros rest relay Hpath Hrelay.
    assert (Js.startsWith path "/.well-known/acme-challenge/" = true) as ->
      by (apply startsWith_spec; by exists rest).
    unfold lookup_relay in Hrelay. by rewrite Hrelay.
Qed.

Lemma plain_connection_acme_gate_witness :
  let w := world (run (accepted_handshake example_headers) (new_World example_config)) in
  io (effects (handleNetConnection 5 "home.ann.spacekit.io"
                 "/.well-known/acme-challenge/xyz" w)) =
    [RelayAddSocket {| relay_obj := 0; relay_webSocket := 0 |} 5
       "home.ann.spacekit.io" 80%Z]
  ∧ io (effects (handleNetConnection 6 "home.bob.spacekit.io" "/bar" w)) =
      [SocketEnd 6
         ("HTTP/1.1 500 Only ACME requests supported" +:+ Js.crlf +:+ Js.crlf +:+
          "Only ACME requests supported")].
Proof.
  split.
  - apply (proj2 (plain_connection_acme_gate
      (world (run (accepted_handshake example_headers) (new_World example_config)))
      5 "home.ann.spacekit.io" "/.well-known/acme-challenge/xyz"
      ltac:(vm_compute; discriminate) ltac:(vm_compute; discriminate)
      ltac:(vm_compute; discriminate)) "xyz").
    + reflexivity.
    + vm_compute. reflexivity.
  - apply (proj1 (plain_connection_acme_gate
      (world (run (accepted_handshake example_headers) (new_World example_config)))
      6 "home.bob.spacekit.io" "/bar"
      ltac:(vm_compute; discriminate) ltac:(vm_compute; discriminate)
      ltac:(vm_compute; discriminate))).
    intros rest. vm_compute. discriminate.
Defined.

(** C7: a plain connection whose hostname is the configured base host
    gets exactly [socket.end] of the 301 response whose [Location] is
    [https://], the Web hostname and the request's path. *)
Theorem base_host_redirects_to_web_hostname
    (w : World) (socket : sock_id) (hostname path : string)
    (Hbase : hostname = host (config (service w))) :
  io (effects (handleNetConnection socket hostname path w)) =
    [SocketEnd socket
       ("HTTP/1.1 301 Moved Permanently" +:+ Js.crlf +:+
        "Location: https://" +:+ webHostname (service w) +:+ path +:+
        Js.crlf +:+ Js.crlf)].
Proof.
  rewrite handleNetConnection_io. by rewrite decide_True.
Qed.

Lemma base_host_redirects_to_web_hostname_witness :
  io (effects (handleNetConnection 2 "spacekit.io" "/foo" (new_World example_config))) =
    [SocketEnd 2
       ("HTTP/1.1 301 Moved Permanently" +:+ Js.crlf +:+
        "Location: https://www.spacekit.io/foo" +:+ Js.crlf +:+ Js.crlf)].
Proof.
  exact (base_host_redirects_to_web_hostname (new_World example_config) 2
           "spacekit.io" "/foo" eq_refl).
Defined.

(** C8: when the WebSocket of a registered relay emits 'close', the
    relay's hostname is no longer in the registry, and a secure
    connection for that hostname (a relay hostname: neither the API nor
    the Web hostname) gets the literal 500 "Relay not connected"
    response again. *)
Theorem closed_relay_is_not_connected
    (cfg : Config) (w : World) (hostname : string) (relay : WebSocketRelay)
    (socket : sock_id)
    (Hreach : reachable cfg w)
    (Hrelay : lookup_relay hostname w = Some relay)
    (Hopen : is_closed (relay_webSocket relay) w = false)
    (Hapi : hostname ≠ apiHostname (service w))
    (Hweb : hostname ≠ webHostname (service w)) :
  let w' := world (step (WsClose (relay_webSocket relay)) w) in
  lookup_relay hostname w' = None
  ∧ io (effects (handleTlsConnection socket hostname w')) =
      [SocketEnd socket
         ("HTTP/1.1 500 Relay not connected" +:+ Js.crlf +:+ Js.crlf +:+
          "Relay not connected")].
Proof.
  intros w'.
  assert (lookup_relay hostname w' = None) as Hgone.
  { apply close_deletes_listened_hostname; [done |].
    by apply (relay_listens w (reachable_consistent cfg w Hreach)). }
  split; [done |].
  destruct (emit_close_observe (relay_webSocket relay) w) as (_ & _ & _ & _ & Ha & Hb & _).
  rewrite handleTlsConnection_io. subst w'. cbn [step].
  unfold lookup_relay in Hgone. cbn [step] in Hgone.
  rewrite Ha, Hb, !decide_False by done. by rewrite Hgone.
Qed.

Lemma closed_relay_is_not_connected_witness :
  let w := world (run (accepted_handshake example_headers) (new_World example_config)) in
  let w' := world (step (WsClose 0) w) in
  lookup_relay "home.ann.spacekit.io" w = Some {| relay_obj := 0; relay_webSocket := 0 |}
  ∧ lookup_relay "home.ann.spacekit.io" w' = None
  ∧ io (effects (handleTlsConnection 8 "home.ann.spacekit.io" w')) =
      [SocketEnd 8
         ("HTTP/1.1 500 Relay not connected" +:+ Js.crlf +:+ Js.crlf +:+
          "Relay not connected")].
Proof.
  split; [vm_compute; reflexivity |].
  apply (closed_relay_is_not_connected example_config
    (world (run (accepted_handshake example_headers) (new_World example_config)))
    "home.ann.spacekit.io" {| relay_obj := 0; relay_webSocket := 0 |} 8).
  - exists (accepted_handshake example_headers). reflexivity.
  - vm_compute. reflexivity.
  - vm_compute. reflexivity.
  - vm_compute. discriminate.
  - vm_compute. discriminate.
Defined.

(** C9: a DNS Sync failure changes neither the registry nor any
    WebSocket, and the service calls nothing in response: the relay stays
    registered, no [webSocket.close()] is issued. *)
Theorem dns_sync_failure_is_swallowed
    (w : World) (ev : Event) (Hfail : dns_sync_failure w ev) :
  registry (world (step ev w)) = registry w
  ∧ webSockets (world (step ev w)) = webSockets w
  ∧ io (effects (step ev w)) = [].
Proof.
  destruct Hfail as [call hostname err Hk|failure]; [| done].
  by destruct (step_Called call _ (DnsReply (DnsError err)) w Hk) as [-> ->].
Qed.

Lemma dns_sync_failure_is_swallowed_witness :
  let w := world (run (accepted_handshake example_headers)
                      (new_World example_config_dns)) in
  let ev := Called 2 (DnsReply (DnsError "ENOTFOUND")) in
  lookup_relay "home.ann.spacekit.io" w = Some {| relay_obj := 0; relay_webSocket := 0 |}
  ∧ registry (world (step ev w)) = registry w
  ∧ webSockets (world (step ev w)) = webSockets w
  ∧ io (effects (step ev w)) = [].
Proof.
  split; [vm_compute; reflexivity |].
  apply dns_sync_failure_is_swallowed.
  apply (resolve_failed _ 2%nat "home.ann.spacekit.io").
  vm_compute. reflexivity.
Defined.

(** C10 as stated fails: a control connection without any registration
    header whose credential-store query fails is rejected through the
    query-failure path, which is none of duplicate, user not found or
    secret verification. *)
Lemma missing_headers_rejected_by_query_failure :
  let w1 := world (step (WssConnection ∅) (new_World example_config)) in
  pending w1 !! 0%nat = Some (AuthDbCallback 0 "undefined.undefined.spacekit.io" None)
  ∧ ¬ rejected_only_through stated_rejection_paths w1
        (Called 0 (DbReply (DbError "ECONNREFUSED"))).
Proof.
  split; [vm_compute; reflexivity |].
  intros Hclaim.
  specialize (Hclaim "relay auth failed (db query error)").
  assert ("relay auth failed (db query error)" ∈ stated_rejection_paths) as Hin.
  { apply Hclaim. vm_compute. by left. }
  unfold stated_rejection_paths in Hin.
  repeat (apply elem_of_cons in Hin as [Hin|Hin]; [discriminate Hin |]).
  by apply elem_of_nil in Hin.
Qed.


(** ** Beyond the claims: more invariants *)

Lemma claimed_hostname_constants (s1 s2 : SpaceKitService) (headers : gmap string string) :
  constants s1 = constants s2 →
  claimed_hostname s1 headers = claimed_hostname s2 headers.
Proof.
  unfold constants, claimed_hostname. intros Hc. by injection Hc as -> _ _ _.
Qed.

Lemma run_cons (ev : Event) (evs : list Event) (w : World) :
  effects (run (ev :: evs) w) =
    effects (step ev w) ++ effects (run evs (world (step ev w)))
  ∧ world (run (ev :: evs) w) = world (run evs (world (step ev w))).
Proof. done. Qed.

Lemma io_app (es1 es2 : list Effect) : io (es1 ++ es2) = io es1 ++ io es2.
Proof. unfold io. apply List.filter_app. Qed.

Lemma io_elem_of_2 (e : Effect) (es : list Effect) :
  is_log e = false → e ∈ es → e ∈ io es.
Proof.
  intros Hlog. induction es as [|e' es IH]; [done |].
  intros Hin. unfold io; cbn.
  apply elem_of_cons in Hin as [<-|Hin].
  - rewrite Hlog. cbn. by left.
  - destruct (is_log e'); cbn; [by apply IH | right; by apply IH].
Qed.

Lemma constants_fields (s1 s2 : SpaceKitService) :
  constants s1 = constants s2 →
  config s1 = config s2 ∧ apiHostname s1 = apiHostname s2
  ∧ webHostname s1 = webHostname s2 ∧ dynamicDNS s1 = dynamicDNS s2.
Proof. unfold constants. intros Hc. by injection Hc as -> -> -> ->. Qed.

Lemma accept_more (headers : gmap string string) (w : World) :
  let w1 := world (accept_WebSocket headers w) in
  listeners (next_ws w) w1 = []
  ∧ is_closed (next_ws w) w1 = false
  ∧ (∀ ws, ws ≠ next_ws w → headers_of ws w1 = headers_of ws w).
Proof.
  unfold listeners, is_closed, object_of, headers_of. act_simpl.
  rewrite lookup_insert_eq. repeat split; try done.
  intros ws Hne. by rewrite lookup_insert_ne.
Qed.

Lemma authenticate_counters (webSocket : ws_id) (w : World) :
  let w1 := world (authenticateRelayConnection webSocket w) in
  next_obj w1 = next_obj w
  ∧ next_call w1 =
      match registry w !! claimed_hostname (service w) (headers_of webSocket w) with
      | Some _ => next_call w
      | None => S (next_call w)
      end
  ∧ (∀ ws, headers_of ws w1 = headers_of ws w).
Proof.
  unfold authenticateRelayConnection, ws_log_info, ws_on_error, ws_set_log.
  unfold registry, claimed_hostname, headers_of. act_simpl.
  destruct (relays (service w) !! _); cbn; repeat split; try done.
  all: intros ws; by ws_cases ws webSocket.
Qed.

(** What a new control connection changes. *)
Lemma WssConnection_observe (headers : gmap string string) (w : World) :
  let w2 := world (step (WssConnection headers) w) in
  service w2 = service w
  ∧ (∀ ws, listeners ws w2 = if decide (ws = next_ws w) then [] else listeners ws w)
  ∧ (∀ ws, headers_of ws w2 =
       if decide (ws = next_ws w) then headers else headers_of ws w)
  ∧ (∀ call k, pending w2 !! call = Some k →
       pending w !! call = Some k
       ∨ ∃ apikey, call = next_call w
                   ∧ k = AuthDbCallback (next_ws w)
                           (claimed_hostname (service w) headers) apikey).
Proof.
  destruct (step_WssConnection headers w) as [_ Hw]. cbn zeta in *. rewrite Hw.
  destruct (accept_WebSocket_world headers w) as (Hs & Hh & Hp & Hc & _).
  destruct (accept_observe headers w) as (_ & _ & _ & Hl & _).
  destruct (accept_more headers w) as (Hl0 & _ & Hho).
  set (w1 := world (accept_WebSocket headers w)) in *.
  destruct (authenticate_observe (next_ws w) w1) as (_ & _ & Hl2 & _).
  destruct (authenticate_counters (next_ws w) w1) as (_ & _ & Hh2).
  pose proof (authenticate_service (next_ws w) w1) as Hs2.
  cbn zeta in *. repeat split.
  - by rewrite Hs2.
  - intros ws. rewrite Hl2. case_decide as Hd; [by subst ws | by apply Hl].
  - intros ws. rewrite Hh2. case_decide as Hd; [by subst ws | by apply Hho].
  - intros call k.
    destruct (registry w1 !! claimed_hostname (service w1) (headers_of (next_ws w) w1))
      as [existing|] eqn:Hreg.
    + destruct (authenticate_duplicate w1 (next_ws w) existing Hreg) as (_ & _ & _ & ->).
      rewrite Hp. by left.
    + destruct (authenticate_fresh w1 (next_ws w) Hreg) as (_ & _ & _ & ->).
      rewrite Hp, Hc, Hs, Hh. intros Hk.
      apply lookup_insert_Some in Hk as [[<- <-]|[_ Hk]]; [right; by eexists | by left].
Qed.

Lemma handleRelayConnection_more (webSocket : ws_id) (hostname : string) (w : World) :
  let w1 := world (handleRelayConnection webSocket hostname w) in
  (∀ ws, headers_of ws w1 = headers_of ws w)
  ∧ pending w1 =
      match dynamicDNS (service w) with
      | Some _ => <[next_call w := DnsResolveCallback hostname]> (pending w)
      | None => pending w
      end
  ∧ next_obj w1 = S (next_obj w).
Proof.
  unfold handleRelayConnection, ws_on_close, headers_of. act_simpl.
  destruct (dynamicDNS (service w)); cbn; repeat split; try done.
  all: intros ws; by ws_cases ws webSocket.
Qed.

Lemma emit_close_more (webSocket : ws_id) (w : World) :
  let w1 := world (emit_close webSocket w) in
  (∀ ws, headers_of ws w1 = headers_of ws w)
  ∧ (∀ ws, is_closed ws w1 = if decide (ws = webSocket) then true else is_closed ws w).
Proof.
  unfold emit_close, headers_of, is_closed, object_of. act_simpl.
  destruct (closed _) eqn:Hclosed; cbn.
  - split; [done |]. intros ws. case_decide as Hws; [by subst ws | done].
  - set (o := default (fresh_WebSocket ∅) (webSockets w !! webSocket)) in *.
    set (w0 := with_webSockets _ w).
    pose proof (run_close_listeners_rest (on_close o) w0) as (Hws & _).
    act_simpl. rewrite Hws. split; intros ws; [subst o; by ws_cases ws webSocket |].
    case_decide as Hd; [subst ws; by rewrite lookup_insert_eq |].
    by rewrite lookup_insert_ne.
Qed.

Lemma new_World_tidy (cfg : Config) : tidy (new_World cfg).
Proof.
  split.
  - intros call h. cbn. by rewrite lookup_empty.
  - intros ws h. unfold listeners, object_of. cbn. rewrite lookup_empty. cbn.
    intros Hin. by apply elem_of_nil in Hin.
  - intros call k ws. cbn. by rewrite lookup_empty.
Qed.

Lemma take_tidy (call : call_id) (w : World) : tidy w → tidy (world (take call w)).
Proof.
  intros [Hdns Hlis Hclo]. split; [| exact Hlis |].
  - intros c h Hk. change (delete call (pending w) !! c = Some (DnsResolveCallback h)) in Hk.
    apply lookup_delete_Some in Hk as [_ Hk]. by eapply Hdns.
  - intros c k ws Hk. change (delete call (pending w) !! c = Some k) in Hk.
    apply lookup_delete_Some in Hk as [_ Hk]. by eapply Hclo.
Qed.

Lemma handleRelayConnection_tidy (webSocket : ws_id) (hostname : string) (w : World) :
  hostname = claimed_hostname (service w) (headers_of webSocket w) →
  tidy w → tidy (world (handleRelayConnection webSocket hostname w)).
Proof.
  intros Hh [Hdns Hlis Hclo].
  destruct (handleRelayConnection_observe webSocket hostname w) as (_ & Hl & _).
  destruct (handleRelayConnection_more webSocket hostname w) as (Hhd & Hp & _).
  pose proof (handleRelayConnection_constants webSocket hostname w) as Hc.
  cbn zeta in *.
  assert (dynamicDNS (service (world (handleRelayConnection webSocket hostname w)))
          = dynamicDNS (service w)) as Hd
    by (unfold constants in Hc; by injection Hc as _ _ _ ->).
  split.
  - intros call h. rewrite Hp, Hd.
    destruct (dynamicDNS (service w)) as [zone|] eqn:Hz; [by eexists |].
    intros Hk. by eapply Hdns.
  - intros ws h. rewrite Hl, Hhd, (claimed_hostname_constants _ _ _ Hc).
    case_decide as Hws; [subst ws|]; [| by apply Hlis].
    intros Hin. apply elem_of_app in Hin as [Hin|Hin]; [by apply Hlis |].
    apply list_elem_of_singleton in Hin. by subst h.
  - intros call k ws. rewrite Hp, Hhd, (claimed_hostname_constants _ _ _ Hc).
    destruct (dynamicDNS (service w)); [| by apply Hclo].
    intros Hk. apply lookup_insert_Some in Hk as [[_ <-]|[_ Hk]]; [done |].
    by eapply Hclo.
Qed.

Lemma invoke_tidy (k : Callback) (reply : Reply) (w : World) :
  (∀ ws, callback_webSocket k = Some ws →
     callback_hostname k = claimed_hostname (service w) (headers_of ws w)) →
  (∀ h, k = DnsResolveCallback h → is_Some (dynamicDNS (service w))) →
  tidy w → tidy (world (invoke k reply w)).
Proof.
  intros Hk Hkd Hw.
  destruct k as [ws h a|ws h|h], reply as [[e|[|row rows]]|[e|[|]]|[e|ads]];
    try exact Hw.
  - destruct Hw as [Hdns Hlis Hclo]. split; [| exact Hlis |].
    + intros call h'.
      change (<[next_call w := AuthBcryptCallback ws h]> (pending w) !! call =
              Some (DnsResolveCallback h') → is_Some (dynamicDNS (service w))).
      intros Hcall. apply lookup_insert_Some in Hcall as [[_ ?]|[_ Hcall]]; [done |].
      by eapply Hdns.
    + intros call k ws'.
      change (<[next_call w := AuthBcryptCallback ws h]> (pending w) !! call = Some k →
              callback_webSocket k = Some ws' →
              callback_hostname k = claimed_hostname (service w) (headers_of ws' w)).
      intros Hcall Hws'. apply lookup_insert_Some in Hcall as [[_ <-]|[_ Hcall]].
      * cbn in Hws'. injection Hws' as <-. by apply (Hk ws).
      * by eapply Hclo.
  - cbn [invoke]. destruct (authBcryptCallback_accept w ws h) as [_ ->].
    apply handleRelayConnection_tidy; [by apply (Hk ws) | done].
  - cbn [invoke].
    by destruct (dnsResolveCallback_effects w h (DnsOk ads)) as (-> & _).
Qed.

Lemma step_tidy (ev : Event) (w : World) :
  consistent w → tidy w → tidy (world (step ev w)).
Proof.
  intros Hcons Hw. destruct ev as [s h|s h p|hd|call r|ws e|ws|failure].
  - cbn [step]. by rewrite handleTlsConnection_world.
  - cbn [step]. by rewrite handleNetConnection_world.
  - destruct (WssConnection_observe hd w) as (Hs & Hl & Hh & Hp).
    cbn zeta in *. destruct Hw as [Hdns Hlis Hclo]. split.
    + intros call h Hk. rewrite Hs.
      destruct (Hp call _ Hk) as [Hold|(a & _ & Hnew)]; [by eapply Hdns | done].
    + intros ws h. rewrite Hl, Hh, Hs. case_decide; [| by apply Hlis].
      intros Hin. by apply elem_of_nil in Hin.
    + intros call k ws Hk Hws. rewrite Hh, Hs.
      destruct (Hp call k Hk) as [Hold|(a & _ & ->)].
      * pose proof (closure_accepted w Hcons call k ws Hold Hws) as Hlt.
        rewrite decide_False by lia. by eapply Hclo.
      * cbn in Hws. injection Hws as <-. by rewrite decide_True.
  - pose proof (take_tidy call w Hw) as Hw1.
    destruct (pending w !! call) as [k|] eqn:Hk.
    + destruct (step_Called call k r w Hk) as [_ ->].
      apply invoke_tidy; [| | done].
      * intros ws Hws. by apply (closure_hostname w Hw call k ws).
      * intros h ->. by apply (dns_closure_configured w Hw call h).
    + unfold step. act_simpl. by rewrite Hk.
  - cbn [step]. by destruct (emit_error_only_log ws e w) as (_ & -> & _).
  - cbn [step]. destruct (emit_close_observe ws w) as (_ & Hp & Hl & _ & _ & _ & Hc).
    destruct (emit_close_more ws w) as (Hh & _).
    cbn zeta in *. destruct Hw as [Hdns Hlis Hclo].
    assert (dynamicDNS (service (world (emit_close ws w))) = dynamicDNS (service w)) as Hd
      by (unfold constants in Hc; by injection Hc as _ _ _ ->).
    split.
    + intros call h. rewrite Hp, Hd. apply Hdns.
    + intros ws' h. rewrite Hl, Hh, (claimed_hostname_constants _ _ _ Hc). apply Hlis.
    + intros call k ws'. rewrite Hp, Hh, (claimed_hostname_constants _ _ _ Hc).
      apply Hclo.
  - exact Hw.
Qed.

Lemma run_tidy (evs : list Event) (w : World) :
  consistent w → tidy w → tidy (world (run evs w)).
Proof.
  revert w. induction evs as [|ev evs IH]; intros w Hc Hw; [exact Hw |].
  destruct (run_cons ev evs w) as [_ ->].
  apply IH; [by apply step_consistent | by apply step_tidy].
Qed.

Lemma reachable_tidy (cfg : Config) (w : World) : reachable cfg w → tidy w.
Proof.
  intros [evs <-]. apply run_tidy; [apply new_World_consistent | apply new_World_tidy].
Qed.

(** ** Beyond the claims: the dispatchers *)

(** X1: a secure connection is forwarded to a relay only when its hostname
    is neither the API nor the Web hostname and the registry holds that
    relay for it; the relay is then asked to add this very socket for this
    hostname and port 443. *)
Theorem secure_forwarding_only_to_registered_relay
    (w : World) (socket : sock_id) (hostname : string)
    (relay : WebSocketRelay) (s : sock_id) (h : string) (port : Z)
    (Hin : RelayAddSocket relay s h port ∈ effects (handleTlsConnection socket hostname w)) :
  s = socket ∧ h = hostname ∧ port = 443%Z
  ∧ lookup_relay hostname w = Some relay
  ∧ hostname ≠ apiHostname (service w)
  ∧ hostname ≠ webHostname (service w)
  ∧ io (effects (handleTlsConnection socket hostname w)) =
      [RelayAddSocket relay socket hostname 443%Z].
Proof.
  apply io_elem_of_2 in Hin; [| done]. revert Hin.
  rewrite handleTlsConnection_io. unfold lookup_relay.
  destruct (decide (hostname = apiHostname (service w))) as [Ha|Ha];
    [intros Hin; by apply list_elem_of_singleton in Hin |].
  destruct (decide (hostname = webHostname (service w))) as [Hb|Hb];
    [intros Hin; by apply list_elem_of_singleton in Hin |].
  destruct (relays (service w) !! hostname) as [relay'|];
    intros Hin; apply list_elem_of_singleton in Hin; [| done].
  by injection Hin as -> -> -> ->.
Qed.

Lemma secure_forwarding_only_to_registered_relay_witness :
  let w := world (run (accepted_handshake example_headers) (new_World example_config)) in
  lookup_relay "home.ann.spacekit.io" w = Some {| relay_obj := 0; relay_webSocket := 0 |}
  ∧ io (effects (handleTlsConnection 3 "home.ann.spacekit.io" w)) =
      [RelayAddSocket {| relay_obj := 0; relay_webSocket := 0 |} 3
         "home.ann.spacekit.io" 443%Z].
Proof.
  pose proof (secure_forwarding_only_to_registered_relay
    (world (run (accepted_handshake example_headers) (new_World example_config)))
    3 "home.ann.spacekit.io" {| relay_obj := 0; relay_webSocket := 0 |} 3
    "home.ann.spacekit.io" 443%Z) as H.
  destruct H as (_ & _ & _ & Hl & _ & _ & Hio).
  - vm_compute. right. left.
  - split; [exact Hl | exact Hio].
Defined.

(** X2: the plain dispatcher hands no socket to the API or Web server, and
    forwards to a relay only an ACME challenge request (the path starts
    with [/.well-known/acme-challenge/]) for a hostname that is none of
    the service's own and has that relay registered; the relay is asked
    to add this socket for this hostname and port 80. *)
Theorem plain_forwarding_only_for_acme_challenges
    (w : World) (socket : sock_id) (hostname path : string) (e : Effect)
    (Hin : e ∈ io (effects (handleNetConnection socket hostname path w))) :
  (∀ s, e ≠ ApiServerConnection s ∧ e ≠ WebServerConnection s)
  ∧ ∀ relay s h port, e = RelayAddSocket relay s h port →
      s = socket ∧ h = hostname ∧ port = 80%Z
      ∧ lookup_relay hostname w = Some relay
      ∧ (∃ rest, path = "/.well-known/acme-challenge/" +:+ rest)
      ∧ hostname ≠ host (config (service w))
      ∧ hostname ≠ apiHostname (service w)
      ∧ hostname ≠ webHostname (service w).
Proof.
  revert Hin. rewrite handleNetConnection_io. unfold lookup_relay.
  destruct (decide (hostname = host (config (service w)))) as [Hh|Hh];
    [intros Hin; apply list_elem_of_singleton in Hin as ->; by split |].
  destruct (decide (hostname = apiHostname (service w)
                    ∨ hostname = webHostname (service w))) as [Hown|Hown];
    [intros Hin; apply list_elem_of_singleton in Hin as ->; by split |].
  destruct (Js.startsWith path "/.well-known/acme-challenge/") eqn:Hstart;
    [| intros Hin; apply list_elem_of_singleton in Hin as ->; by split].
  apply startsWith_spec in Hstart.
  destruct (relays (service w) !! hostname) as [relay'|];
    intros Hin; apply list_elem_of_singleton in Hin as ->; [| by split].
  split; [done |]. intros relay s h port Heq. injection Heq as <- <- <- <-.
  repeat split; try done; intros ->; apply Hown; first [by left | by right].
Qed.

Lemma plain_forwarding_only_for_acme_challenges_witness :
  let w := world (run (accepted_handshake example_headers) (new_World example_config)) in
  lookup_relay "home.ann.spacekit.io" w = Some {| relay_obj := 0; relay_webSocket := 0 |}
  ∧ "home.ann.spacekit.io" ≠ host (config (service w))
  ∧ "home.ann.spacekit.io" ≠ apiHostname (service w)
  ∧ "home.ann.spacekit.io" ≠ webHostname (service w).
Proof.
  intros w.
  destruct (plain_forwarding_only_for_acme_challenges w 5 "home.ann.spacekit.io"
    "/.well-known/acme-challenge/token"
    (RelayAddSocket {| relay_obj := 0; relay_webSocket := 0 |} 5
       "home.ann.spacekit.io" 80%Z)) as [_ H].
  - vm_compute. left.
  - destruct (H _ _ _ _ eq_refl) as (_ & _ & _ & Hl & _ & Hh & Ha & Hb).
    exact (conj Hl (conj Hh (conj Ha Hb))).
Defined.

(** X3: a plain connection for the API hostname or the Web hostname
    (when that is not the base host) is answered with a 301 to
    [https://] the same hostname and path, whatever the path, ACME
    challenge or not, and whatever the registry holds. *)
Theorem own_hostnames_are_redirected_to_https
    (w : World) (socket : sock_id) (hostname path : string)
    (Hbase : hostname ≠ host (config (service w)))
    (Hown : hostname = apiHostname (service w) ∨ hostname = webHostname (service w)) :
  io (effects (handleNetConnection socket hostname path w)) =
    [SocketEnd socket
       ("HTTP/1.1 301 Moved Permanently" +:+ Js.crlf +:+
        "Location: https://" +:+ hostname +:+ path +:+ Js.crlf +:+ Js.crlf)].
Proof.
  rewrite handleNetConnection_io. by rewrite decide_False, decide_True.
Qed.

Lemma own_hostnames_are_redirected_to_https_witness :
  io (effects (handleNetConnection 2 "api.spacekit.io" "/.well-known/acme-challenge/t"
                 (new_World example_config))) =
    [SocketEnd 2
       ("HTTP/1.1 301 Moved Permanently" +:+ Js.crlf +:+
        "Location: https://api.spacekit.io/.well-known/acme-challenge/t" +:+
        Js.crlf +:+ Js.crlf)].
Proof.
  apply (own_hostnames_are_redirected_to_https (new_World example_config) 2
           "api.spacekit.io" "/.well-known/acme-challenge/t").
  - vm_compute. discriminate.
  - left. vm_compute. reflexivity.
Defined.

(** X4: both dispatchers decide every connection on the spot: they make
    exactly one call, it is about the socket they were given, and they
    leave the world (registry included) as it was. *)
Theorem dispatch_is_one_call_on_the_socket
    (w : World) (socket : sock_id) (hostname path : string) :
  (∃ e, io (effects (handleTlsConnection socket hostname w)) = [e]
        ∧ socket_of e = Some socket)
  ∧ world (handleTlsConnection socket hostname w) = w
  ∧ (∃ e, io (effects (handleNetConnection socket hostname path w)) = [e]
          ∧ socket_of e = Some socket)
  ∧ world (handleNetConnection socket hostname path w) = w.
Proof.
  rewrite handleTlsConnection_io, handleNetConnection_io.
  rewrite handleTlsConnection_world, handleNetConnection_world.
  repeat split.
  - repeat case_decide; try destruct (relays (service w) !! hostname);
      by eexists.
  - repeat case_decide; try destruct (Js.startsWith path _);
      try destruct (relays (service w) !! hostname); by eexists.
Qed.


(** ** Beyond the claims: the steps of a handshake, in full *)

Lemma WssConnection_fresh (headers : gmap string string) (w : World) :
  lookup_relay (claimed_hostname (service w) headers) w = None →
  let w1 := world (step (WssConnection headers) w) in
  service w1 = service w
  ∧ pending w1 =
      <[next_call w :=
          AuthDbCallback (next_ws w) (claimed_hostname (service w) headers)
            (headers !! "x-spacekit-apikey")]> (pending w)
  ∧ next_call w1 = S (next_call w)
  ∧ next_ws w1 = S (next_ws w)
  ∧ next_obj w1 = next_obj w
  ∧ is_closed (next_ws w) w1 = false
  ∧ listeners (next_ws w) w1 = []
  ∧ io (effects (step (WssConnection headers) w)) =
      [DbRun (next_call w) "SELECT id, api_key FROM users WHERE username = $1"
         [headers !! "x-spacekit-username"]].
Proof.
  intros Hnone.
  destruct (step_WssConnection headers w) as [He Hw]. cbn zeta in *. rewrite He, Hw.
  destruct (accept_WebSocket_world headers w) as (Hs & Hh & Hp & Hc & Ho).
  destruct (accept_observe headers w) as (_ & Hn & _).
  destruct (accept_more headers w) as (Hl0 & Hc0 & _).
  set (w1 := world (accept_WebSocket headers w)) in *.
  assert (registry w1 !! claimed_hostname (service w1) (headers_of (next_ws w) w1) = None)
    as Hreg by (unfold registry, lookup_relay in *; by rewrite Hs, Hh).
  destruct (authenticate_fresh w1 (next_ws w) Hreg) as (Hio & _ & Hs2 & Hp2).
  destruct (authenticate_observe (next_ws w) w1) as (_ & Hn2 & Hl2 & Hc2 & _).
  destruct (authenticate_counters (next_ws w) w1) as (Ho2 & Hk2 & _).
  cbn zeta in *. rewrite Hreg in Hk2.
  repeat split.
  - by rewrite Hs2.
  - by rewrite Hp2, Hp, Hc, Hs, Hh.
  - by rewrite Hk2, Hc.
  - by rewrite Hn2.
  - by rewrite Ho2.
  - by rewrite Hc2.
  - by rewrite Hl2.
  - by rewrite Hio, Hh, Hc.
Qed.

Lemma WssConnection_duplicate (headers : gmap string string) (w : World)
    (existing : WebSocketRelay) :
  lookup_relay (claimed_hostname (service w) headers) w = Some existing →
  io (effects (step (WssConnection headers) w)) = [WebSocketClose (next_ws w)]
  ∧ rejections (effects (step (WssConnection headers) w)) =
      ["relay auth failed (already exists)"]
  ∧ registry (world (step (WssConnection headers) w)) = registry w.
Proof.
  intros Hdup. split; [| split]; [| | by apply registry_frame].
  all: destruct (step_WssConnection headers w) as [-> _];
    destruct (accept_WebSocket_world headers w) as (Hs & Hh & _);
    set (w1 := world (accept_WebSocket headers w)) in *;
    assert (registry w1 !! claimed_hostname (service w1) (headers_of (next_ws w) w1)
            = Some existing) as Hdup1
      by (unfold registry, lookup_relay in *; by rewrite Hs, Hh);
    by destruct (authenticate_duplicate w1 (next_ws w) existing Hdup1) as (? & ? & _).
Qed.

Lemma step_db_row (call : call_id) (webSocket : ws_id) (hostname : string)
    (apikey : option string) (row : Row) (rows : list Row) (w : World) :
  pending w !! call = Some (AuthDbCallback webSocket hostname apikey) →
  world (step (Called call (DbReply (DbOk (row :: rows)))) w) =
    {| service := service w; webSockets := webSockets w;
       pending := <[next_call w := AuthBcryptCallback webSocket hostname]>
                    (delete call (pending w));
       next_call := S (next_call w); next_ws := next_ws w; next_obj := next_obj w |}
  ∧ io (effects (step (Called call (DbReply (DbOk (row :: rows)))) w)) =
      [BcryptCompare (next_call w) apikey (api_key row)].
Proof.
  intros Hk.
  by destruct (step_Called call _ (DbReply (DbOk (row :: rows))) w Hk) as [-> ->].
Qed.

Lemma step_pass (call : call_id) (webSocket : ws_id) (hostname : string) (w : World) :
  pending w !! call = Some (AuthBcryptCallback webSocket hostname) →
  let r := step (Called call (BcryptReply (BcryptOk true))) w in
  registry (world r) =
    <[hostname := {| relay_obj := next_obj w; relay_webSocket := webSocket |}]>
      (registry w)
  ∧ io (effects r) =
      match dynamicDNS (service w) with
      | Some _ =>
          [DnsResolve4 (next_call w)
             (api (config (service w)) +:+ "." +:+ host (config (service w)))]
      | None => []
      end
  ∧ (∀ ws, is_closed ws (world r) = is_closed ws w)
  ∧ (∀ ws, listeners ws (world r) =
       if decide (ws = webSocket) then listeners ws w ++ [hostname]
       else listeners ws w)
  ∧ constants (service (world r)) = constants (service w).
Proof.
  intros Hk r. subst r.
  destruct (step_Called call _ (BcryptReply (BcryptOk true)) w Hk) as [-> ->].
  cbn [invoke].
  destruct (authBcryptCallback_accept (world (take call w)) webSocket hostname)
    as [-> ->].
  destruct (handleRelayConnection_registers (world (take call w)) webSocket hostname)
    as (Hreg & _ & _ & Hio).
  destruct (handleRelayConnection_observe webSocket hostname (world (take call w)))
    as (_ & Hl & Hc & _).
  pose proof (handleRelayConnection_constants webSocket hostname (world (take call w)))
    as Hk'.
  repeat split; try done.
Qed.

(** ** Beyond the claims: handshakes from start to end *)

(** A handshake that passes, step by step. *)
Lemma handshake_passes
    (w : World) (headers : gmap string string) (row : Row) (rows : list Row)
    (Hfree : lookup_relay (claimed_hostname (service w) headers) w = None) :
  let hostname := claimed_hostname (service w) headers in
  let relay := {| relay_obj := next_obj w; relay_webSocket := next_ws w |} in
  let r := run (handshake w headers (DbOk (row :: rows)) (BcryptOk true)) w in
  lookup_relay hostname (world r) = Some relay
  ∧ io (effects r) =
      [ DbRun (next_call w) "SELECT id, api_key FROM users WHERE username = $1"
          [headers !! "x-spacekit-username"];
        BcryptCompare (S (next_call w)) (headers !! "x-spacekit-apikey") (api_key row) ]
      ++ match dynamicDNS (service w) with
         | Some _ =>
             [DnsResolve4 (S (S (next_call w)))
                (api (config (service w)) +:+ "." +:+ host (config (service w)))]
         | None => []
         end
  ∧ constants (service (world r)) = constants (service w).
Proof.
  intros hostname relay r. subst r. unfold handshake.
  destruct (WssConnection_fresh headers w Hfree)
    as (Hs1 & Hp1 & Hc1 & _ & Ho1 & _ & _ & Hio1).
  set (ev1 := WssConnection headers) in *.
  set (ev2 := Called (next_call w) (DbReply (DbOk (row :: rows)))).
  set (ev3 := Called (S (next_call w)) (BcryptReply (BcryptOk true))).
  set (w1 := world (step ev1 w)) in *. cbn zeta in *.
  destruct (step_db_row (next_call w) (next_ws w) hostname
              (headers !! "x-spacekit-apikey") row rows w1) as [Hw2 Hio2].
  { rewrite Hp1. by rewrite lookup_insert_eq. }
  fold ev2 in Hw2, Hio2. set (w2 := world (step ev2 w1)) in *.
  destruct (step_pass (S (next_call w)) (next_ws w) hostname w2)
    as (Hreg & Hio3 & _ & _ & Hconst).
  { rewrite Hw2, Hc1. cbn. by rewrite lookup_insert_eq. }
  fold ev3 in Hreg, Hio3, Hconst. set (w3 := world (step ev3 w2)) in *.
  assert (next_call w2 = S (S (next_call w)) ∧ next_obj w2 = next_obj w
          ∧ service w2 = service w) as (Hc2 & Ho2 & Hs2)
    by (rewrite Hw2; cbn; by rewrite Hc1, Ho1, Hs1).
  assert (world (run [ev1; ev2; ev3] w) = w3) as -> by done.
  assert (effects (run [ev1; ev2; ev3] w) =
          effects (step ev1 w) ++ effects (step ev2 w1) ++ effects (step ev3 w2) ++ [])
    as -> by done.
  rewrite !io_app, Hio1, Hio2, Hio3, Hc1, Hc2, Hs2.
  assert (lookup_relay hostname w3 = Some relay) as Hl.
  { unfold lookup_relay. fold (registry w3). rewrite Hreg, Ho2. apply lookup_insert_eq. }
  repeat split.
  - exact Hl.
  - by destruct (dynamicDNS (service w)).
  - by rewrite Hconst, Hs2.
Qed.


(** X5: a handshake for a hostname that is not registered, whose user
    exists and whose secret verifies, registers a new relay wrapping its
    WebSocket under the hostname composed from its headers.  The secret
    is compared with the hash of the first row only; nothing is closed;
    and a secure connection for that hostname is from then on forwarded
    to the new relay with port 443, unless the hostname is the API or
    the Web hostname, which the API or Web server keeps serving. *)
Theorem passed_handshake_registers_the_relay
    (w : World) (headers : gmap string string) (row : Row) (rows : list Row)
    (Hfree : lookup_relay (claimed_hostname (service w) headers) w = None) :
  let hostname := claimed_hostname (service w) headers in
  let relay := {| relay_obj := next_obj w; relay_webSocket := next_ws w |} in
  let r := run (handshake w headers (DbOk (row :: rows)) (BcryptOk true)) w in
  lookup_relay hostname (world r) = Some relay
  ∧ io (effects r) =
      [ DbRun (next_call w) "SELECT id, api_key FROM users WHERE username = $1"
          [headers !! "x-spacekit-username"];
        BcryptCompare (S (next_call w)) (headers !! "x-spacekit-apikey") (api_key row) ]
      ++ match dynamicDNS (service w) with
         | Some _ =>
             [DnsResolve4 (S (S (next_call w)))
                (api (config (service w)) +:+ "." +:+ host (config (service w)))]
         | None => []
         end
  ∧ ∀ socket,
      io (effects (handleTlsConnection socket hostname (world r))) =
        if decide (hostname = apiHostname (service w)) then
          [ApiServerConnection socket]
        else if decide (hostname = webHostname (service w)) then
          [WebServerConnection socket]
        else
          [RelayAddSocket relay socket hostname 443%Z].
Proof.
  intros hostname relay r.
  destruct (handshake_passes w headers row rows Hfree) as (Hl & Hio & Hconst).
  fold hostname relay r in Hl, Hio, Hconst.
  split; [exact Hl |]. split; [exact Hio |].
  intros socket. rewrite handleTlsConnection_io.
  destruct (constants_fields _ _ Hconst) as (_ & -> & -> & _).
  unfold lookup_relay in Hl. by rewrite Hl.
Qed.

Lemma passed_handshake_registers_the_relay_witness :
  let r := run (handshake (new_World example_config_dns) example_headers
                  (DbOk [example_row]) (BcryptOk true))
               (new_World example_config_dns) in
  lookup_relay "home.ann.spacekit.io" (world r) =
    Some {| relay_obj := 0; relay_webSocket := 0 |}
  ∧ io (effects r) =
      [ DbRun 0 "SELECT id, api_key FROM users WHERE username = $1" [Some "ann"];
        BcryptCompare 1 (Some "s3cret") "$2a$10$hash";
        DnsResolve4 2 "api.spacekit.io" ].
Proof.
  destruct (passed_handshake_registers_the_relay (new_World example_config_dns)
              example_headers example_row [] ltac:(vm_compute; reflexivity))
    as (Hl & Hio & _).
  split; [exact Hl | exact Hio].
Defined.

Lemma emit_close_counters (webSocket : ws_id) (w : World) :
  let w1 := world (emit_close webSocket w) in
  next_call w1 = next_call w ∧ next_obj w1 = next_obj w.
Proof.
  unfold emit_close. act_simpl.
  destruct (closed _) eqn:Hclosed; cbn; [done |].
  set (o := default (fresh_WebSocket ∅) (webSockets w !! webSocket)) in *.
  set (w0 := with_webSockets _ w).
  pose proof (run_close_listeners_rest (on_close o) w0) as (_ & _ & Hc & _ & Ho & _).
  act_simpl. by rewrite Hc, Ho.
Qed.

(** X6: a control connection whose WebSocket emits 'close' while its
    secret is being verified is registered all the same when the
    verification passes: the registry then holds a relay whose WebSocket
    is closed, the service has closed nothing, and a new handshake for
    the same hostname is rejected as a duplicate. *)
Theorem connection_closed_during_verification_is_still_registered
    (w : World) (headers : gmap string string) (row : Row) (rows : list Row)
    (Hfree : lookup_relay (claimed_hostname (service w) headers) w = None) :
  let hostname := claimed_hostname (service w) headers in
  let relay := {| relay_obj := next_obj w; relay_webSocket := next_ws w |} in
  let r := run (handshake_closed_early w headers (DbOk (row :: rows)) (BcryptOk true)) w in
  lookup_relay hostname (world r) = Some relay
  ∧ is_closed (next_ws w) (world r) = true
  ∧ (∀ ws, WebSocketClose ws ∉ io (effects r))
  ∧ io (effects (step (WssConnection headers) (world r))) =
      [WebSocketClose (next_ws (world r))]
  ∧ rejections (effects (step (WssConnection headers) (world r))) =
      ["relay auth failed (already exists)"].
Proof.
  intros hostname relay r. subst r. unfold handshake_closed_early.
  destruct (WssConnection_fresh headers w Hfree)
    as (Hs1 & Hp1 & Hc1 & _ & Ho1 & Hopen & Hnol & Hio1).
  set (ev1 := WssConnection headers) in *.
  set (ev2 := Called (next_call w) (DbReply (DbOk (row :: rows)))).
  set (ev3 := WsClose (next_ws w)).
  set (ev4 := Called (S (next_call w)) (BcryptReply (BcryptOk true))).
  set (w1 := world (step ev1 w)) in *. cbn zeta in *.
  destruct (step_db_row (next_call w) (next_ws w) hostname
              (headers !! "x-spacekit-apikey") row rows w1) as [Hw2 Hio2].
  { rewrite Hp1. by rewrite lookup_insert_eq. }
  fold ev2 in Hw2, Hio2. set (w2 := world (step ev2 w1)) in *.
  assert (next_obj w2 = next_obj w ∧ service w2 = service w
          ∧ pending w2 !! S (next_call w) = Some (AuthBcryptCallback (next_ws w) hostname))
    as (Ho2 & Hs2 & Hp2).
  { rewrite Hw2; cbn. rewrite Hc1, Ho1, Hs1. by rewrite lookup_insert_eq. }
  (* the 'close' event *)
  destruct (emit_close_observe (next_ws w) w2) as (_ & Hp3 & _ & Hreg3 & _ & _ & Hconst3).
  destruct (emit_close_more (next_ws w) w2) as (_ & Hcl3).
  destruct (emit_close_counters (next_ws w) w2) as (_ & Ho3).
  pose proof (emit_close_effects (next_ws w) w2) as Hio3.
  change (emit_close (next_ws w) w2) with (step ev3 w2) in *.
  set (w3 := world (step ev3 w2)) in *. cbn zeta in *.
  (* the verification passes *)
  destruct (step_pass (S (next_call w)) (next_ws w) hostname w3)
    as (Hreg4 & Hio4 & Hcl4 & _ & Hconst4).
  { by rewrite Hp3. }
  fold ev4 in Hreg4, Hio4, Hcl4, Hconst4. set (w4 := world (step ev4 w3)) in *.
  assert (world (run [ev1; ev2; ev3; ev4] w) = w4) as -> by done.
  assert (effects (run [ev1; ev2; ev3; ev4] w) =
          effects (step ev1 w) ++ effects (step ev2 w1) ++ effects (step ev3 w2)
          ++ effects (step ev4 w3) ++ []) as -> by done.
  assert (constants (service w4) = constants (service w)) as Hconst
    by (by rewrite Hconst4, Hconst3, Hs2).
  assert (lookup_relay hostname w4 = Some relay) as Hl.
  { unfold lookup_relay. fold (registry w4). rewrite Hreg4, Ho3, Ho2.
    apply lookup_insert_eq. }
  assert (lookup_relay (claimed_hostname (service w4) headers) w4 = Some relay) as Hdup
    by (by rewrite (claimed_hostname_constants _ _ _ Hconst)).
  destruct (WssConnection_duplicate headers w4 relay Hdup) as (Hio5 & Hrej5 & _).
  repeat split; try done.
  - rewrite Hcl4, Hcl3. by rewrite decide_True.
  - intros ws. rewrite !io_app, Hio1, Hio2, Hio3, Hio4.
    destruct (dynamicDNS (service w3)); cbn; intros Hin;
      repeat (apply elem_of_cons in Hin as [Hin|Hin]; [discriminate Hin |]);
      by apply elem_of_nil in Hin.
Qed.

Lemma connection_closed_during_verification_is_still_registered_witness :
  let w := new_World example_config in
  let r := run (handshake_closed_early w example_headers (DbOk [example_row])
                  (BcryptOk true)) w in
  lookup_relay "home.ann.spacekit.io" (world r) =
    Some {| relay_obj := 0; relay_webSocket := 0 |}
  ∧ is_closed 0 (world r) = true.
Proof.
  destruct (connection_closed_during_verification_is_still_registered
              (new_World example_config) example_headers example_row []
              ltac:(vm_compute; reflexivity)) as (Hl & Hc & _).
  split; [exact Hl | exact Hc].
Defined.

(** ** Beyond the claims: who can change a registration *)

Lemma not_pass_frame (ev : Event) :
  is_pass ev = false → ∀ call, ev ≠ Called call (BcryptReply (BcryptOk true)).
Proof. intros Hp call ->. discriminate Hp. Qed.

(** X7: in every reachable world, what the registry holds for a hostname
    changes only through a connection that claimed that very hostname in
    its headers: either its secret verification passes, or its open
    WebSocket emits 'close'.  No other event, and no connection for
    another hostname, touches the entry. *)
Theorem registration_changes_only_through_own_connection
    (cfg : Config) (w : World) (ev : Event) (hostname : string)
    (Hreach : reachable cfg w)
    (Hchange : lookup_relay hostname (world (step ev w)) ≠ lookup_relay hostname w) :
  ∃ ws,
    hostname = claimed_hostname (service w) (headers_of ws w)
    ∧ ((∃ call, ev = Called call (BcryptReply (BcryptOk true))
                ∧ pending w !! call = Some (AuthBcryptCallback ws hostname))
       ∨ (ev = WsClose ws ∧ is_closed ws w = false)).
Proof.
  pose proof (reachable_tidy cfg w Hreach) as Htidy.
  unfold lookup_relay in Hchange.
  fold (registry (world (step ev w))) in Hchange. fold (registry w) in Hchange.
  destruct (is_pass ev) eqn:Hpass.
  - destruct ev as [| | |call [|[|[|]]|]| | |]; try discriminate Hpass.
    destruct (pending w !! call) as [k|] eqn:Hk.
    + destruct k as [ws h a|ws h|h].
      * destruct (step_Called call _ (BcryptReply (BcryptOk true)) w Hk) as [_ Hw].
        by rewrite Hw in Hchange.
      * destruct (step_pass call ws h w Hk) as (Hreg & _). cbn zeta in Hreg.
        rewrite Hreg in Hchange.
        destruct (decide (h = hostname)) as [->|Hne];
          [| by rewrite lookup_insert_ne in Hchange].
        exists ws. split; [| left; by exists call].
        by apply (closure_hostname w Htidy call (AuthBcryptCallback ws hostname) ws).
      * destruct (step_Called call _ (BcryptReply (BcryptOk true)) w Hk) as [_ Hw].
        by rewrite Hw in Hchange.
    + destruct (step_Called_unknown call (BcryptReply (BcryptOk true)) w Hk)
        as (_ & Hreg & _).
      by rewrite Hreg in Hchange.
  - assert ((∃ ws, ev = WsClose ws) ∨ ∀ ws, ev ≠ WsClose ws) as [[ws ->]|Hnc]
      by (destruct ev; first [by right | left; by eexists]).
    + cbn [step] in Hchange.
      destruct (emit_close_observe ws w) as (_ & _ & _ & Hreg & _). cbn zeta in Hreg.
      rewrite Hreg in Hchange.
      destruct (is_closed ws w) eqn:Hclosed; [done |].
      destruct (decide (hostname ∈ listeners ws w)) as [Hin|Hin]; [| done].
      exists ws. split; [by apply (listener_hostname w Htidy) | by right].
    + rewrite registry_frame in Hchange; [done | by apply not_pass_frame | done].
Qed.

(** X8: without a passed secret verification no relay is ever added:
    whatever else happens (connections, failed or pending handshakes,
    closes, DNS replies), every registry entry afterwards was there
    before. *)
Theorem no_relay_without_passed_verification
    (evs : list Event) (w : World) (hostname : string) (relay : WebSocketRelay)
    (Hnone : Forall (λ ev, is_pass ev = false) evs)
    (Hafter : lookup_relay hostname (world (run evs w)) = Some relay) :
  lookup_relay hostname w = Some relay.
Proof.
  revert w Hafter. induction Hnone as [|ev evs Hev _ IH]; intros w Hafter; [done |].
  destruct (run_cons ev evs w) as [_ Hw]. rewrite Hw in Hafter.
  apply IH in Hafter. unfold lookup_relay in *.
  fold (registry (world (step ev w))) in Hafter. fold (registry w).
  assert ((∃ ws, ev = WsClose ws) ∨ ∀ ws, ev ≠ WsClose ws) as [[ws ->]|Hnc]
    by (destruct ev; first [by right | left; by eexists]).
  - cbn [step] in Hafter.
    destruct (emit_close_observe ws w) as (_ & _ & _ & Hreg & _). cbn zeta in Hreg.
    rewrite Hreg in Hafter. destruct (is_closed ws w); [done |]. by case_decide.
  - rewrite registry_frame in Hafter; [done | by apply not_pass_frame | done].
Qed.

Lemma no_relay_without_passed_verification_witness :
  let evs := [ WssConnection example_headers;
               Called 2 (DbReply (DbOk [example_row]));
               TlsConnection 1 "home.ann.spacekit.io";
               Called 3 (BcryptReply (BcryptOk false));
               WsClose 1 ] in
  let w := world (run (accepted_handshake example_headers_api)
                      (new_World example_config_dotted)) in
  lookup_relay "api.ann.spacekit.io" (world (run evs w)) =
    Some {| relay_obj := 0; relay_webSocket := 0 |}
  ∧ lookup_relay "api.ann.spacekit.io" w =
      Some {| relay_obj := 0; relay_webSocket := 0 |}.
Proof.
  intros evs w.
  assert (lookup_relay "api.ann.spacekit.io" (world (run evs w)) =
          Some {| relay_obj := 0; relay_webSocket := 0 |}) as Hafter
    by (vm_compute; reflexivity).
  split; [exact Hafter |].
  apply (no_relay_without_passed_verification evs w); [| exact Hafter].
  repeat constructor.
Defined.

Lemma registration_changes_only_through_own_connection_witness :
  let w := world (run (accepted_handshake example_headers) (new_World example_config)) in
  ∃ ws,
    "home.ann.spacekit.io" = claimed_hostname (service w) (headers_of ws w)
    ∧ ((∃ call, WsClose 0 = Called call (BcryptReply (BcryptOk true))
                ∧ pending w !! call = Some (AuthBcryptCallback ws "home.ann.spacekit.io"))
       ∨ (WsClose 0 = WsClose ws ∧ is_closed ws w = false)).
Proof.
  apply (registration_changes_only_through_own_connection example_config).
  - exists (accepted_handshake example_headers). reflexivity.
  - vm_compute. discriminate.
Defined.

(** ** Beyond the claims: every call the service makes *)

Lemma handleTlsConnection_single (w : World) (socket : sock_id) (hostname : string) :
  ∃ e, io (effects (handleTlsConnection socket hostname w)) = [e]
       ∧ socket_of e = Some socket.
Proof.
  rewrite handleTlsConnection_io.
  repeat case_decide; try destruct (relays (service w) !! hostname); by eexists.
Qed.

Lemma handleNetConnection_single (w : World) (socket : sock_id) (hostname path : string) :
  ∃ e, io (effects (handleNetConnection socket hostname path w)) = [e]
       ∧ socket_of e = Some socket.
Proof.
  rewrite handleNetConnection_io.
  repeat case_decide; try destruct (Js.startsWith path _);
    try destruct (relays (service w) !! hostname); by eexists.
Qed.

Lemma dnsResolveCallback_io (hostname : string) (addresses : list string) (w : World) :
  io (effects (dnsResolveCallback hostname (DnsOk addresses) w)) =
    match dynamicDNS (service w) with
    | Some zone => [DnsUpsert zone hostname "A" (Js.first addresses)]
    | None => [Uncaught "TypeError"]
    end.
Proof.
  unfold dnsResolveCallback. act_simpl. by destruct (dynamicDNS (service w)).
Qed.

(** The calls, other than to the log, that one event can cause. *)
Lemma step_io_cases (ev : Event) (w : World) (e : Effect) :
  e ∈ io (effects (step ev w)) →
  (∃ s, socket_of e = Some s)
  ∨ (∃ ws, e = WebSocketClose ws)
  ∨ (∃ headers, ev = WssConnection headers
       ∧ e = DbRun (next_call w) "SELECT id, api_key FROM users WHERE username = $1"
               [headers !! "x-spacekit-username"])
  ∨ (∃ call data hash, e = BcryptCompare call data hash)
  ∨ (is_Some (dynamicDNS (service w))
     ∧ ∃ call, e = DnsResolve4 call
                     (api (config (service w)) +:+ "." +:+ host (config (service w))))
  ∨ (∃ call hostname zone addresses,
       pending w !! call = Some (DnsResolveCallback hostname)
       ∧ dynamicDNS (service w) = Some zone
       ∧ e = DnsUpsert zone hostname "A" (Js.first addresses))
  ∨ (∃ call hostname,
       pending w !! call = Some (DnsResolveCallback hostname)
       ∧ dynamicDNS (service w) = None
       ∧ e = Uncaught "TypeError").
Proof.
  destruct ev as [s h|s h p|hd|call r|ws err|ws|failure]; cbn [step].
  - destruct (handleTlsConnection_single w s h) as (e' & -> & He').
    intros Hin. apply list_elem_of_singleton in Hin as ->. left. by eexists.
  - destruct (handleNetConnection_single w s h p) as (e' & -> & He').
    intros Hin. apply list_elem_of_singleton in Hin as ->. left. by eexists.
  - destruct (lookup_relay (claimed_hostname (service w) hd) w) as [existing|] eqn:Hreg.
    + destruct (WssConnection_duplicate hd w existing Hreg) as (Hio & _).
      cbn [step] in Hio. rewrite Hio.
      intros Hin. apply list_elem_of_singleton in Hin as ->. right; left. by eexists.
    + destruct (WssConnection_fresh hd w Hreg) as (_ & _ & _ & _ & _ & _ & _ & Hio).
      cbn [step] in Hio. rewrite Hio.
      intros Hin. apply list_elem_of_singleton in Hin as ->.
      do 2 right; left. by eexists.
  - destruct (pending w !! call) as [k|] eqn:Hk.
    + destruct (step_Called call k r w Hk) as [He _]. cbn [step] in He. rewrite He.
      destruct k as [ws h a|ws h|h], r as [[err|[|row rows]]|[err|[|]]|[err|ads]];
        cbn [invoke];
        try (intros Hin; by apply elem_of_nil in Hin);
        try (intros Hin; apply list_elem_of_singleton in Hin as ->;
             first [ right; left; by eexists
                   | do 3 right; left; by do 3 eexists ]).
      * destruct (authBcryptCallback_accept (world (take call w)) ws h) as [-> _].
        rewrite handleRelayConnection_effects.
        change (service (world (take call w))) with (service w).
        destruct (dynamicDNS (service w)) as [zone|] eqn:Hz; cbn; intros Hin.
        -- apply list_elem_of_singleton in Hin as ->.
           do 4 right; left. split; [by eexists | by eexists].
        -- by apply elem_of_nil in Hin.
      * rewrite dnsResolveCallback_io.
        change (service (world (take call w))) with (service w).
        destruct (dynamicDNS (service w)) as [zone|] eqn:Hz; intros Hin;
          apply list_elem_of_singleton in Hin as ->.
        -- do 5 right; left. by exists call, h, zone, ads.
        -- do 6 right. by exists call, h.
    + destruct (step_Called_unknown call r w Hk) as [He _]. cbn [step] in He.
      rewrite He. intros Hin. by apply elem_of_nil in Hin.
  - destruct (emit_error_only_log ws err w) as (-> & _).
    intros Hin. by apply elem_of_nil in Hin.
  - rewrite emit_close_effects. intros Hin. by apply elem_of_nil in Hin.
  - intros Hin. by apply elem_of_nil in Hin.
Qed.

Lemma run_effects_elem_of (P : World → Prop) (Q : Effect → Prop) :
  (∀ ev w, P w → P (world (step ev w))) →
  (∀ ev w e, P w → e ∈ effects (step ev w) → Q e) →
  ∀ evs w e, P w → e ∈ effects (run evs w) → Q e.
Proof.
  intros Hpres Hstep evs. induction evs as [|ev evs IH]; intros w e Hw Hin.
  - by apply elem_of_nil in Hin.
  - destruct (run_cons ev evs w) as [He _]. rewrite He in Hin.
    apply elem_of_app in Hin as [Hin|Hin]; [by eapply Hstep |].
    eapply IH; [| exact Hin]. by apply Hpres.
Qed.

(** X9: [this.dynamicDNS.upsert] is never called while [this.dynamicDNS]
    is undefined: however the events fall, the resolver's callback finds
    the updater the constructor created, and no TypeError is thrown. *)
Theorem resolver_callback_always_finds_dynamicDNS
    (cfg : Config) (evs : list Event) (e : Effect)
    (Hin : e ∈ effects (run evs (new_World cfg))) :
  is_uncaught e = false.
Proof.
  revert Hin.
  apply (run_effects_elem_of (λ w, consistent w ∧ tidy w) (λ e, is_uncaught e = false)).
  - intros ev w [Hc Ht]. split; [by apply step_consistent | by apply step_tidy].
  - intros ev w e' [_ Ht] Hin. destruct e'; try done.
    apply io_elem_of_2 in Hin; [| done].
    apply step_io_cases in Hin
      as [[s Hs]|[[ws Hs]|[(hd & _ & Hs)|[(c & a & h & Hs)|[[_ [c Hs]]
         |[(c & h & z & ads & _ & _ & Hs)|(c & h & Hk & Hnone & _)]]]]]];
      try discriminate Hs.
    destruct (dns_closure_configured w Ht c h Hk) as [zone Hz]. congruence.
  - split; [apply new_World_consistent | apply new_World_tidy].
Qed.

Lemma resolver_callback_always_finds_dynamicDNS_witness :
  is_uncaught (DnsUpsert "zone" "home.ann.spacekit.io" "A" (Some "203.0.113.7")) = false.
Proof.
  apply (resolver_callback_always_finds_dynamicDNS example_config_dns
    (accepted_handshake example_headers ++ [Called 2 (DnsReply (DnsOk ["203.0.113.7"]))])).
  vm_compute. do 4 right. left.
Defined.

(** X10: when the configuration has no DNS zone ([dnsZone] undefined or
    the empty string) the service never calls the resolver nor
    [DynamicDNS], whatever happens. *)
Theorem no_dns_calls_without_a_zone
    (cfg : Config) (evs : list Event) (e : Effect)
    (Hzone : Js.truthy (dnsZone cfg) = false)
    (Hin : e ∈ effects (run evs (new_World cfg))) :
  is_dns e = false.
Proof.
  revert Hin.
  apply (run_effects_elem_of (λ w, dynamicDNS (service w) = None)
           (λ e, is_dns e = false)).
  - intros ev w Hd. pose proof (step_constants ev w) as Hc.
    unfold constants in Hc. injection Hc as _ _ _ ->. exact Hd.
  - intros ev w e' Hd Hin. destruct e'; try done.
    + apply io_elem_of_2 in Hin; [| done].
      apply step_io_cases in Hin
        as [[s Hs]|[[ws Hs]|[(hd & _ & Hs)|[(c & a & h & Hs)|[[[z Hz] _]
           |[(c & h & z & ads & _ & Hz & _)|(c & h & _ & _ & Hs)]]]]]];
        try discriminate Hs; congruence.
    + apply io_elem_of_2 in Hin; [| done].
      apply step_io_cases in Hin
        as [[s Hs]|[[ws Hs]|[(hd & _ & Hs)|[(c & a & h & Hs)|[[[z Hz] _]
           |[(c & h & z & ads & _ & Hz & _)|(c & h & _ & _ & Hs)]]]]]];
        try discriminate Hs; congruence.
  - cbn. by rewrite Hzone.
Qed.

Lemma no_dns_calls_without_a_zone_witness :
  is_dns (BcryptCompare 1 (Some "s3cret") "$2a$10$hash") = false.
Proof.
  apply (no_dns_calls_without_a_zone
    {| host := "spacekit.io"; api := "api"; web := "www"; dnsZone := Some "" |}
    (accepted_handshake example_headers)).
  - reflexivity.
  - vm_compute. right. left.
Defined.

(** X11: the service sends the credential store one query text only, with
    the claimed username as its single parameter: whatever the headers of
    a connection hold, they never become part of the SQL. *)
Theorem credential_query_is_parameterized
    (evs : list Event) (w : World) (call : call_id) (query : string)
    (params : list (option string))
    (Hin : DbRun call query params ∈ effects (run evs w)) :
  query = "SELECT id, api_key FROM users WHERE username = $1"
  ∧ ∃ headers, WssConnection headers ∈ evs
               ∧ params = [headers !! "x-spacekit-username"].
Proof.
  revert w Hin. induction evs as [|ev evs IH]; intros w Hin.
  - by apply elem_of_nil in Hin.
  - destruct (run_cons ev evs w) as [He _]. rewrite He in Hin.
    apply elem_of_app in Hin as [Hin|Hin].
    + apply io_elem_of_2 in Hin; [| done].
      apply step_io_cases in Hin
        as [[s Hs]|[[ws Hs]|[(hd & -> & Hs)|[(c & a & h & Hs)|[[_ [c Hs]]
           |[(c & h & z & ads & _ & _ & Hs)|(c & h & _ & _ & Hs)]]]]]];
        try discriminate Hs.
      injection Hs as _ -> ->. split; [done |]. exists hd. split; [by left | done].
    + destruct (IH _ Hin) as [Hq (hd & Hhd & Hp)]. split; [done |].
      exists hd. split; [by right | done].
Qed.

Lemma credential_query_is_parameterized_witness :
  let headers : gmap string string :=
    {[ "x-spacekit-username" := "ann' OR '1'='1" ]} in
  ∃ headers', WssConnection headers' ∈ [WssConnection headers]
              ∧ [Some "ann' OR '1'='1"] = [headers' !! "x-spacekit-username"].
Proof.
  intros headers.
  apply (credential_query_is_parameterized [WssConnection headers]
           (new_World example_config) 0
           "SELECT id, api_key FROM users WHERE username = $1"
           [Some "ann' OR '1'='1"]).
  vm_compute. left.
Defined.

(** ** Beyond the claims: DNS Sync, hostnames, and relay objects *)



(** Prefixing a string makes it longer by the length of the prefix. *)
Lemma prefixed_length (label rest : string) :
  (String.length rest + String.length label)%nat = String.length (label +:+ rest).
Proof.
  induction label as [|c label IH]; cbn [String.length]; [by rewrite Nat.add_0_r |].
  rewrite append_cons. cbn [String.length]. by rewrite <- IH, Nat.add_succ_r.
Qed.

Lemma label_dot_host_ne (label h : string) : label +:+ "." +:+ h ≠ h.
Proof.
  intros Heq. apply (f_equal String.length) in Heq.
  rewrite <- !prefixed_length in Heq. cbn in Heq. lia.
Qed.

(** X13: in every reachable world a registered hostname is the one
    composed from the headers of the WebSocket its relay wraps:
    subdomain, username and the base host, joined by dots (with
    "undefined" for a header that is missing). *)
Theorem registered_hostname_is_composed_from_own_headers
    (cfg : Config) (w : World) (hostname : string) (relay : WebSocketRelay)
    (Hreach : reachable cfg w)
    (Hrelay : lookup_relay hostname w = Some relay) :
  let headers := headers_of (relay_webSocket relay) w in
  hostname =
    Js.template (headers !! "x-spacekit-subdomain") +:+ "." +:+
    Js.template (headers !! "x-spacekit-username") +:+ "." +:+ host cfg.
Proof.
  intros headers.
  pose proof (relay_listens w (reachable_consistent cfg w Hreach) hostname relay Hrelay)
    as Hin.
  apply (listener_hostname w (reachable_tidy cfg w Hreach)) in Hin.
  destruct (reachable_service cfg w Hreach) as (Hcfg & _).
  unfold claimed_hostname in Hin. by rewrite Hcfg in Hin.
Qed.

Lemma registered_hostname_is_composed_from_own_headers_witness :
  let w := world (run (accepted_handshake {[ "x-spacekit-username" := "ann" ]})
                      (new_World example_config)) in
  "undefined.ann.spacekit.io" =
    Js.template (headers_of 0 w !! "x-spacekit-subdomain") +:+ "." +:+
    Js.template (headers_of 0 w !! "x-spacekit-username") +:+ "." +:+
    host example_config.
Proof.
  apply (registered_hostname_is_composed_from_own_headers example_config
    (world (run (accepted_handshake {[ "x-spacekit-username" := "ann" ]})
                (new_World example_config)))
    "undefined.ann.spacekit.io" {| relay_obj := 0; relay_webSocket := 0 |}).
  - exists (accepted_handshake {[ "x-spacekit-username" := "ann" ]}). reflexivity.
  - vm_compute. reflexivity.
Defined.

(** X14: no relay can ever be registered for the bare base host, so in
    every reachable world a secure connection for the base host itself is
    answered with the 500 "Relay not connected" response. *)
Theorem bare_base_host_is_never_served
    (cfg : Config) (w : World) (socket : sock_id)
    (Hreach : reachable cfg w) :
  lookup_relay (host cfg) w = None
  ∧ io (effects (handleTlsConnection socket (host cfg) w)) =
      [SocketEnd socket
         ("HTTP/1.1 500 Relay not connected" +:+ Js.crlf +:+ Js.crlf +:+
          "Relay not connected")].
Proof.
  assert (lookup_relay (host cfg) w = None) as Hnone.
  { destruct (lookup_relay (host cfg) w) as [relay|] eqn:Hrelay; [| done].
    pose proof (relay_listens w (reachable_consistent cfg w Hreach) _ relay Hrelay)
      as Hin.
    apply (listener_hostname w (reachable_tidy cfg w Hreach)) in Hin.
    destruct (reachable_service cfg w Hreach) as (Hcfg & _).
    unfold claimed_hostname in Hin. rewrite Hcfg in Hin. symmetry in Hin.
    exfalso. revert Hin.
    change (?a +:+ "." +:+ ?b +:+ "." +:+ host cfg)
      with (a +:+ "." +:+ (b +:+ "." +:+ host cfg)).
    generalize (Js.template (headers_of (relay_webSocket relay) w
                               !! "x-spacekit-subdomain")).
    generalize (Js.template (headers_of (relay_webSocket relay) w
                               !! "x-spacekit-username")).
    intros b a Heq. apply (f_equal String.length) in Heq.
    rewrite <- !prefixed_length in Heq. cbn in Heq. lia. }
  split; [exact Hnone |].
  destruct (reachable_service cfg w Hreach) as (_ & Ha & Hb & _).
  rewrite handleTlsConnection_io, Ha, Hb. unfold lookup_relay in Hnone.
  rewrite !decide_False, Hnone; [done | |];
    intros Heq; symmetry in Heq; by apply label_dot_host_ne in Heq.
Qed.

Lemma bare_base_host_is_never_served_witness :
  let w := world (run (accepted_handshake example_headers) (new_World example_config)) in
  lookup_relay "spacekit.io" w = None
  ∧ io (effects (handleTlsConnection 4 "spacekit.io" w)) =
      [SocketEnd 4
         ("HTTP/1.1 500 Relay not connected" +:+ Js.crlf +:+ Js.crlf +:+
          "Relay not connected")].
Proof.
  apply (bare_base_host_is_never_served example_config
    (world (run (accepted_handshake example_headers) (new_World example_config))) 4).
  exists (accepted_handshake example_headers). reflexivity.
Defined.


(** X16: in every reachable world a WebSocket serves at most one
    hostname: two registry entries whose relays wrap the same WebSocket
    (in particular, two entries holding the same relay) are one entry. *)
Theorem a_websocket_serves_one_hostname
    (cfg : Config) (w : World) (h1 h2 : string) (r1 r2 : WebSocketRelay)
    (Hreach : reachable cfg w)
    (H1 : lookup_relay h1 w = Some r1)
    (H2 : lookup_relay h2 w = Some r2)
    (Hws : relay_webSocket r1 = relay_webSocket r2) :
  h1 = h2.
Proof.
  pose proof (reachable_consistent cfg w Hreach) as Hc.
  pose proof (reachable_tidy cfg w Hreach) as Ht.
  pose proof (listener_hostname w Ht _ _ (relay_listens w Hc h1 r1 H1)) as E1.
  pose proof (listener_hostname w Ht _ _ (relay_listens w Hc h2 r2 H2)) as E2.
  by rewrite E1, E2, Hws.
Qed.

Lemma a_websocket_serves_one_hostname_witness :
  "home.ann.spacekit.io" = "home.ann.spacekit.io".
Proof.
  apply (a_websocket_serves_one_hostname example_config
    (world (run (accepted_handshake example_headers) (new_World example_config)))
    "home.ann.spacekit.io" "home.ann.spacekit.io"
    {| relay_obj := 0; relay_webSocket := 0 |} {| relay_obj := 0; relay_webSocket := 0 |}).
  - exists (accepted_handshake example_headers). reflexivity.
  - vm_compute. reflexivity.
  - vm_compute. reflexivity.
  - reflexivity.
Defined.

(** X17: once the WebSocket of a registered relay has emitted 'close',
    the hostname is free again: a new connection that claims it and
    passes the handshake is registered, with a new relay wrapping the new
    WebSocket. *)
Theorem hostname_can_be_claimed_again_after_close
    (cfg : Config) (w : World) (relay : WebSocketRelay)
    (headers : gmap string string) (row : Row) (rows : list Row)
    (Hreach : reachable cfg w)
    (Hrelay : lookup_relay (claimed_hostname (service w) headers) w = Some relay)
    (Hopen : is_closed (relay_webSocket relay) w = false) :
  let hostname := claimed_hostname (service w) headers in
  let w1 := world (step (WsClose (relay_webSocket relay)) w) in
  let w2 := world (run (handshake w1 headers (DbOk (row :: rows)) (BcryptOk true)) w1) in
  lookup_relay hostname w1 = None
  ∧ lookup_relay hostname w2 =
      Some {| relay_obj := next_obj w; relay_webSocket := next_ws w |}.
Proof.
  intros hostname w1 w2.
  assert (lookup_relay hostname w1 = None) as Hnone.
  { apply close_deletes_listened_hostname; [done |].
    by apply (relay_listens w (reachable_consistent cfg w Hreach)). }
  split; [exact Hnone |].
  destruct (emit_close_observe (relay_webSocket relay) w)
    as (Hn & _ & _ & _ & _ & _ & Hc).
  destruct (emit_close_counters (relay_webSocket relay) w) as (_ & Ho).
  change (emit_close (relay_webSocket relay) w)
    with (step (WsClose (relay_webSocket relay)) w) in *.
  fold w1 in Hn, Hc, Ho. cbn zeta in *.
  assert (claimed_hostname (service w1) headers = hostname) as Hh
    by (by apply claimed_hostname_constants).
  destruct (handshake_passes w1 headers row rows) as (Hl & _).
  { by rewrite Hh. }
  subst w2. cbn zeta in Hl. by rewrite Hh, Ho, Hn in Hl.
Qed.

Lemma hostname_can_be_claimed_again_after_close_witness :
  let w := world (run (accepted_handshake example_headers) (new_World example_config)) in
  let w1 := world (step (WsClose 0) w) in
  let w2 := world (run (handshake w1 example_headers (DbOk [example_row]) (BcryptOk true))
                       w1) in
  lookup_relay "home.ann.spacekit.io" w1 = None
  ∧ lookup_relay "home.ann.spacekit.io" w2 =
      Some {| relay_obj := 1; relay_webSocket := 1 |}.
Proof.
  apply (hostname_can_be_claimed_again_after_close example_config
    (world (run (accepted_handshake example_headers) (new_World example_config)))
    {| relay_obj := 0; relay_webSocket := 0 |} example_headers example_row []).
  - exists (accepted_handshake example_headers). reflexivity.
  - vm_compute. reflexivity.
  - vm_compute. reflexivity.
Defined.


(** ** Beyond the claims: a rejection is final *)

Lemma WssConnection_next_ws (headers : gmap string string) (w : World) :
  next_ws (world (step (WssConnection headers) w)) = S (next_ws w).
Proof.
  destruct (step_WssConnection headers w) as [_ ->].
  destruct (accept_observe headers w) as (_ & Hn & _).
  destruct (authenticate_observe (next_ws w) (world (accept_WebSocket headers w)))
    as (_ & Hn2 & _).
  cbn zeta in *. by rewrite Hn2, Hn.
Qed.

(** What the reply to a call changes. *)
Lemma step_Called_observe (call : call_id) (reply : Reply) (w : World) :
  let w1 := world (step (Called call reply) w) in
  next_ws w1 = next_ws w
  ∧ (∀ ws, listeners ws w1 = listeners ws w
           ∨ ∃ h, pending w !! call = Some (AuthBcryptCallback ws h)
                  ∧ listeners ws w1 = listeners ws w ++ [h])
  ∧ (∀ c k ws, pending w1 !! c = Some k → callback_webSocket k = Some ws →
       (c ≠ call ∧ pending w !! c = Some k)
       ∨ ∃ h a, c = next_call w
                ∧ pending w !! call = Some (AuthDbCallback ws h a)
                ∧ k = AuthBcryptCallback ws h).
Proof.
  assert (∀ c k, delete call (pending w) !! c = Some k →
                 c ≠ call ∧ pending w !! c = Some k) as Hdel
    by (intros c k Hc; by apply lookup_delete_Some in Hc as [? ?]).
  destruct (pending w !! call) as [k|] eqn:Hk.
  - destruct (step_Called call k reply w Hk) as [_ Hw]. cbn zeta. rewrite Hw.
    destruct k as [ws h a|ws h|h], reply as [[e|[|row rows]]|[e|[|]]|[e|ads]];
      cbn [invoke];
      try (repeat split; [intros ws'; by left | intros c k ws' Hc _; left; by apply Hdel]).
    + (* a row: the secret is sent for verification *)
      repeat split; [intros ws'; by left |].
      intros c k ws' Hc Hws'.
      change (<[next_call w := AuthBcryptCallback ws h]> (delete call (pending w)) !! c
              = Some k) in Hc.
      apply lookup_insert_Some in Hc as [[<- <-]|[_ Hc]]; [| left; by apply Hdel].
      cbn in Hws'. injection Hws' as <-. right. by exists h, a.
    + (* the verification passes *)
      destruct (authBcryptCallback_accept (world (take call w)) ws h) as [_ ->].
      destruct (handleRelayConnection_observe ws h (world (take call w)))
        as (Hn & Hl & _).
      destruct (handleRelayConnection_more ws h (world (take call w))) as (_ & Hp & _).
      cbn zeta in *. repeat split; [exact Hn | |].
      * intros ws'. rewrite Hl. case_decide as Hws; [subst ws'; right; by exists h | by left].
      * intros c k ws'. rewrite Hp.
        change (service (world (take call w))) with (service w).
        change (pending (world (take call w))) with (delete call (pending w)).
        destruct (dynamicDNS (service w)); intros Hc Hws'.
        -- apply lookup_insert_Some in Hc as [[_ <-]|[_ Hc]]; [done |].
           left. by apply Hdel.
        -- left. by apply Hdel.
    + (* the resolver answers *)
      destruct (dnsResolveCallback_effects (world (take call w)) h (DnsOk ads))
        as (-> & _).
      repeat split; [intros ws'; by left | intros c k ws' Hc _; left; by apply Hdel].
  - cbn zeta. unfold step. act_simpl. rewrite Hk.
    repeat split; [intros ws'; by left | intros c k ws' Hc _; left; by apply Hdel].
Qed.

Lemma new_World_single (cfg : Config) : single (new_World cfg).
Proof.
  split; intros ws c; [intros c2|]; intros (k & Hk & _); cbn in Hk;
    by rewrite lookup_empty in Hk.
Qed.

Lemma step_single (ev : Event) (w : World) :
  consistent w → single w → single (world (step ev w)).
Proof.
  intros Hcons [Hone Hwait]. destruct ev as [s h|s h p|hd|call r|ws e|ws|failure].
  - cbn [step]. by rewrite handleTlsConnection_world.
  - cbn [step]. by rewrite handleNetConnection_world.
  - destruct (WssConnection_observe hd w) as (_ & Hl & _ & Hp). cbn zeta in *.
    assert (∀ ws c, waits_for ws (world (step (WssConnection hd) w)) c →
              (ws ≠ next_ws w ∧ waits_for ws w c) ∨ (ws = next_ws w ∧ c = next_call w))
      as Hcases.
    { intros ws c (k & Hk & Hws).
      destruct (Hp c k Hk) as [Hold|(a & -> & ->)].
      - left. split; [| by exists k].
        pose proof (closure_accepted w Hcons c k ws Hold Hws). lia.
      - right. cbn in Hws. by injection Hws as <-. }
    split.
    + intros ws c1 c2 H1 H2.
      destruct (Hcases ws c1 H1) as [[Hn1 H1']|[He1 ->]],
               (Hcases ws c2 H2) as [[Hn2 H2']|[He2 ->]]; try done.
      by eapply Hone.
    + intros ws c Hc. rewrite Hl.
      destruct (Hcases ws c Hc) as [[Hne Hc']|[-> _]].
      * rewrite decide_False by done. by eapply Hwait.
      * by rewrite decide_True.
  - destruct (step_Called_observe call r w) as (_ & Hl & Hp). cbn zeta in *.
    assert (∀ ws c, waits_for ws (world (step (Called call r) w)) c →
              (c ≠ call ∧ waits_for ws w c)
              ∨ (c = next_call w
                 ∧ ∃ h a, pending w !! call = Some (AuthDbCallback ws h a)))
      as Hcases.
    { intros ws c (k & Hk & Hws).
      destruct (Hp c k ws Hk Hws) as [[Hne Hold]|(h & a & -> & Hold & ->)].
      - left. split; [done | by exists k].
      - right. split; [done | by exists h, a]. }
    assert (∀ ws h a, pending w !! call = Some (AuthDbCallback ws h a) →
                      waits_for ws w call) as Hdb
      by (intros ws h a Hk; by eexists).
    split.
    + intros ws c1 c2 H1 H2.
      destruct (Hcases ws c1 H1) as [[Hn1 H1']|[-> (h1 & a1 & Hk1)]],
               (Hcases ws c2 H2) as [[Hn2 H2']|[-> (h2 & a2 & Hk2)]].
      * by eapply Hone.
      * destruct Hn1. eapply Hone; [exact H1' | by eapply Hdb].
      * destruct Hn2. eapply Hone; [exact H2' | by eapply Hdb].
      * done.
    + intros ws c Hc.
      destruct (Hcases ws c Hc) as [[Hne Hc']|[-> (h & a & Hk)]].
      * destruct (Hl ws) as [->|(h & Hk & _)]; [by eapply Hwait |].
        exfalso. apply Hne. eapply Hone; [exact Hc' | by eexists].
      * destruct (Hl ws) as [->|(h' & Hk' & _)];
          [eapply Hwait; by eapply Hdb | congruence].
  - cbn [step]. by destruct (emit_error_only_log ws e w) as (_ & -> & _).
  - cbn [step]. destruct (emit_close_observe ws w) as (_ & Hp & Hl & _). cbn zeta in *.
    split.
    + intros ws' c1 c2 (k1 & H1 & W1) (k2 & H2 & W2). rewrite Hp in H1, H2.
      eapply Hone; by eexists.
    + intros ws' c (k & Hk & Hws). rewrite Hp in Hk. rewrite Hl.
      eapply Hwait. by eexists.
  - done.
Qed.

Lemma run_single (evs : list Event) (w : World) :
  consistent w → single w → single (world (run evs w)).
Proof.
  revert w. induction evs as [|ev evs IH]; intros w Hc Hw; [exact Hw |].
  destruct (run_cons ev evs w) as [_ ->].
  apply IH; [by apply step_consistent | by apply step_single].
Qed.

Lemma reachable_single (cfg : Config) (w : World) : reachable cfg w → single w.
Proof.
  intros [evs <-]. apply run_single; [apply new_World_consistent | apply new_World_single].
Qed.

Lemma step_idle (ev : Event) (w : World) (ws : ws_id) :
  idle ws w → idle ws (world (step ev w)).
Proof.
  intros (Hno & Hl & Hlt). destruct ev as [s h|s h p|hd|call r|ws' e|ws'|failure].
  - cbn [step]. by rewrite handleTlsConnection_world.
  - cbn [step]. by rewrite handleNetConnection_world.
  - destruct (WssConnection_observe hd w) as (_ & Hl1 & _ & Hp). cbn zeta in *.
    repeat split.
    + intros c (k & Hk & Hws). destruct (Hp c k Hk) as [Hold|(a & _ & ->)].
      * apply (Hno c). by exists k.
      * cbn in Hws. injection Hws as <-. lia.
    + rewrite Hl1, decide_False by lia. exact Hl.
    + rewrite WssConnection_next_ws. lia.
  - destruct (step_Called_observe call r w) as (Hn & Hl1 & Hp). cbn zeta in *.
    repeat split.
    + intros c (k & Hk & Hws).
      destruct (Hp c k ws Hk Hws) as [[_ Hold]|(h & a & _ & Hold & _)].
      * apply (Hno c). by exists k.
      * apply (Hno call). by eexists.
    + destruct (Hl1 ws) as [->|(h & Hk & _)]; [exact Hl |].
      destruct (Hno call). by eexists.
    + by rewrite Hn.
  - cbn [step]. by destruct (emit_error_only_log ws' e w) as (_ & -> & _).
  - cbn [step]. destruct (emit_close_observe ws' w) as (Hn & Hp & Hl1 & _).
    cbn zeta in *. repeat split.
    + intros c (k & Hk & Hws). rewrite Hp in Hk. apply (Hno c). by exists k.
    + by rewrite Hl1.
    + by rewrite Hn.
  - done.
Qed.

Lemma run_idle (evs : list Event) (w : World) (ws : ws_id) :
  idle ws w → idle ws (world (run evs w)).
Proof.
  revert w. induction evs as [|ev evs IH]; intros w Hw; [exact Hw |].
  destruct (run_cons ev evs w) as [_ ->]. by apply IH, step_idle.
Qed.

(** X18: a rejection is final.  Once a handshake has been rejected in a
    reachable world, its WebSocket is never registered, whatever events
    follow: no registry entry ever holds a relay wrapping it. *)
Theorem rejected_connection_is_never_registered
    (cfg : Config) (w : World) (ev : Event) (webSocket : ws_id) (cause : string)
    (evs : list Event) (hostname : string) (relay : WebSocketRelay)
    (Hreach : reachable cfg w)
    (Hrej : rejection w ev webSocket cause)
    (Hrelay : lookup_relay hostname (world (run (ev :: evs) w)) = Some relay) :
  relay_webSocket relay ≠ webSocket.
Proof.
  pose proof (reachable_consistent cfg w Hreach) as Hcons.
  pose proof (reachable_single cfg w Hreach) as [Hone Hwait].
  assert (idle webSocket (world (step ev w))) as Hidle.
  { destruct Hrej as [hd existing Hdup|call ws h a e Hk|call ws h a Hk
                     |call ws h e Hk|call ws h Hk].
    - destruct (WssConnection_observe hd w) as (_ & Hl & _ & Hp). cbn zeta in *.
      repeat split.
      + intros c (k & Hk & Hws). destruct (Hp c k Hk) as [Hold|(a & _ & ->)].
        * pose proof (closure_accepted w Hcons c k _ Hold Hws). lia.
        * destruct (step_WssConnection hd w) as [_ Hw]. rewrite Hw in Hk.
          destruct (accept_WebSocket_world hd w) as (Hs & Hh & Hpd & _).
          destruct (authenticate_duplicate (world (accept_WebSocket hd w))
                      (next_ws w) existing) as (_ & _ & _ & Hpe).
          { unfold registry in *. by rewrite Hs, Hh. }
          cbn zeta in Hpe. rewrite Hpe, Hpd in Hk.
          pose proof (closure_accepted w Hcons c _ (next_ws w) Hk eq_refl). lia.
      + by rewrite Hl, decide_True.
      + rewrite WssConnection_next_ws. lia.
    - destruct (step_Called call _ (DbReply (DbError e)) w Hk) as [_ ->].
      repeat split.
      + intros c (k & Hc & Hws). change (delete call (pending w) !! c = Some k) in Hc.
        apply lookup_delete_Some in Hc as [Hne Hc]. apply Hne.
        eapply Hone; by eexists.
      + eapply Hwait. by eexists.
      + by eapply (closure_accepted w Hcons call).
    - destruct (step_Called call _ (DbReply (DbOk [])) w Hk) as [_ ->].
      repeat split.
      + intros c (k & Hc & Hws). change (delete call (pending w) !! c = Some k) in Hc.
        apply lookup_delete_Some in Hc as [Hne Hc]. apply Hne.
        eapply Hone; by eexists.
      + eapply Hwait. by eexists.
      + by eapply (closure_accepted w Hcons call).
    - destruct (step_Called call _ (BcryptReply (BcryptError e)) w Hk) as [_ ->].
      repeat split.
      + intros c (k & Hc & Hws). change (delete call (pending w) !! c = Some k) in Hc.
        apply lookup_delete_Some in Hc as [Hne Hc]. apply Hne.
        eapply Hone; by eexists.
      + eapply Hwait. by eexists.
      + by eapply (closure_accepted w Hcons call).
    - destruct (step_Called call _ (BcryptReply (BcryptOk false)) w Hk) as [_ ->].
      repeat split.
      + intros c (k & Hc & Hws). change (delete call (pending w) !! c = Some k) in Hc.
        apply lookup_delete_Some in Hc as [Hne Hc]. apply Hne.
        eapply Hone; by eexists.
      + eapply Hwait. by eexists.
      + by eapply (closure_accepted w Hcons call). }
  destruct (run_cons ev evs w) as [_ Hw]. rewrite Hw in Hrelay.
  pose proof (run_idle evs _ _ Hidle) as (_ & Hnol & _).
  assert (consistent (world (run evs (world (step ev w))))) as Hcons'
    by (by apply run_consistent, step_consistent).
  pose proof (relay_listens _ Hcons' hostname relay Hrelay) as Hin.
  intros Heq. rewrite Heq, Hnol in Hin. by apply elem_of_nil in Hin.
Qed.

Lemma rejected_connection_is_never_registered_witness :
  let w := world (run [ WssConnection example_headers;
                        Called 0 (DbReply (DbOk [example_row])) ]
                      (new_World example_config)) in
  let evs := [ Called 1 (BcryptReply (BcryptOk true));
               WssConnection example_headers;
               Called 2 (DbReply (DbOk [example_row]));
               Called 3 (BcryptReply (BcryptOk true)) ] in
  lookup_relay "home.ann.spacekit.io"
    (world (run (Called 1 (BcryptReply (BcryptOk false)) :: evs) w)) =
    Some {| relay_obj := 0; relay_webSocket := 1 |}
  ∧ 1%nat ≠ 0%nat.
Proof.
  intros w evs.
  assert (lookup_relay "home.ann.spacekit.io"
            (world (run (Called 1 (BcryptReply (BcryptOk false)) :: evs) w)) =
          Some {| relay_obj := 0; relay_webSocket := 1 |}) as Hrelay
    by (vm_compute; reflexivity).
  split; [exact Hrelay |].
  apply (rejected_connection_is_never_registered example_config w
    (Called 1 (BcryptReply (BcryptOk false))) 0
    "relay auth failed (api key incorrect)" evs "home.ann.spacekit.io"
    {| relay_obj := 0; relay_webSocket := 1 |}).
  - exists [ WssConnection example_headers; Called 0 (DbReply (DbOk [example_row])) ].
    reflexivity.
  - apply (reject_secret_mismatch _ 1%nat 0%nat "home.ann.spacekit.io").
    vm_compute. reflexivity.
  - exact Hrelay.
Defined.

(** X19: an ACME challenge request on the plain port for a hostname that
    is none of the service's own and has no relay gets the 500 "Relay
    not connected" response, byte for byte what a secure connection for
    that hostname gets. *)
Theorem acme_challenge_without_relay_is_refused
    (w : World) (socket : sock_id) (hostname rest : string)
    (Hbase : hostname ≠ host (config (service w)))
    (Hapi : hostname ≠ apiHostname (service w))
    (Hweb : hostname ≠ webHostname (service w))
    (Hnone : lookup_relay hostname w = None) :
  io (effects (handleNetConnection socket hostname
                 ("/.well-known/acme-challenge/" +:+ rest) w)) =
    [SocketEnd socket
       ("HTTP/1.1 500 Relay not connected" +:+ Js.crlf +:+ Js.crlf +:+
        "Relay not connected")]
  ∧ io (effects (handleNetConnection socket hostname
                   ("/.well-known/acme-challenge/" +:+ rest) w)) =
      io (effects (handleTlsConnection socket hostname w)).
Proof.
  rewrite handleNetConnection_io, handleTlsConnection_io.
  unfold lookup_relay in Hnone.
  assert (Js.startsWith ("/.well-known/acme-challenge/" +:+ rest)
            "/.well-known/acme-challenge/" = true) as ->
    by (apply startsWith_spec; by exists rest).
  rewrite !decide_False, Hnone; [done | done | done | by intros [?|?] | done].
Qed.

Lemma acme_challenge_without_relay_is_refused_witness :
  io (effects (handleNetConnection 6 "home.ann.spacekit.io"
                 ("/.well-known/acme-challenge/" +:+ "token")
                 (new_World example_config))) =
    [SocketEnd 6
       ("HTTP/1.1 500 Relay not connected" +:+ Js.crlf +:+ Js.crlf +:+
        "Relay not connected")].
Proof.
  apply (proj1 (acme_challenge_without_relay_is_refused (new_World example_config) 6
                  "home.ann.spacekit.io" "token"
                  ltac:(vm_compute; discriminate) ltac:(vm_compute; discriminate)
                  ltac:(vm_compute; discriminate) ltac:(vm_compute; reflexivity))).
Defined.


(** ** The handshake of a connection that lacks a header *)

(** What a rejecting step does, for every way of rejecting. *)
Lemma rejection_step (w : World) (ev : Event) (webSocket : ws_id) (cause : string) :
  rejection w ev webSocket cause →
  io (effects (step ev w)) = [WebSocketClose webSocket]
  ∧ rejections (effects (step ev w)) = [cause]
  ∧ cause ∈ rejection_paths.
Proof.
  intros Hrej. split; [| split].
  3: { unfold rejection_paths, stated_rejection_paths.
       destruct Hrej; repeat first [by left | right]. }
  all: destruct Hrej as [hd existing Hdup|call ws h a e Hk|call ws h a Hk
                        |call ws h e Hk|call ws h Hk].
  all: try (destruct (step_Called call _ (DbReply (DbError e)) w Hk) as [-> _]; done).
  all: try (destruct (step_Called call _ (DbReply (DbOk [])) w Hk) as [-> _]; done).
  all: try (destruct (step_Called call _ (BcryptReply (BcryptError e)) w Hk) as [-> _]; done).
  all: try (destruct (step_Called call _ (BcryptReply (BcryptOk false)) w Hk) as [-> _]; done).
  all: by destruct (WssConnection_duplicate hd w existing Hdup) as (? & ? & _).
Qed.

(** C10, amended: a control connection that lacks a registration header
    is not rejected as malformed.  The hostname it claims has the string
    "undefined" for each missing part.  Unless that hostname is already
    registered the handshake issues the credential-store query with the
    username as received, and if a user row comes back and the secret
    verifies, the connection is registered under that hostname and
    nothing is closed.  If the hostname is registered the connection is
    closed as a duplicate.  And whatever happens, every
    [webSocket.close()] the service issues is the rejection of a
    handshake through the duplicate, query-failure, user-not-found or
    secret-verification path, logged with that cause: there is no close
    without one of these causes. *)
Theorem missing_headers_are_not_rejected_as_malformed
    (w : World) (headers : gmap string string)
    (Hmissing : headers !! "x-spacekit-subdomain" = None
                ∨ headers !! "x-spacekit-username" = None
                ∨ headers !! "x-spacekit-apikey" = None) :
  let part := λ name, match headers !! name with Some v => v | None => "undefined" end in
  let hostname := part "x-spacekit-subdomain" +:+ "." +:+ part "x-spacekit-username" +:+
                  "." +:+ host (config (service w)) in
  let r := step (WssConnection headers) w in
  (lookup_relay hostname w = None →
     io (effects r) =
       [DbRun (next_call w) "SELECT id, api_key FROM users WHERE username = $1"
          [headers !! "x-spacekit-username"]]
     ∧ pending (world r) !! next_call w =
         Some (AuthDbCallback (next_ws w) hostname (headers !! "x-spacekit-apikey")))
  ∧ (∀ existing, lookup_relay hostname w = Some existing →
       rejections (effects r) = ["relay auth failed (already exists)"])
  ∧ (∀ w' ev, rejected_only_through rejection_paths w' ev)
  ∧ (∀ existing, lookup_relay hostname w = Some existing →
       io (effects r) = [WebSocketClose (next_ws w)])
  ∧ (∀ row rows, lookup_relay hostname w = None →
       let r' := run (handshake w headers (DbOk (row :: rows)) (BcryptOk true)) w in
       lookup_relay hostname (world r') =
         Some {| relay_obj := next_obj w; relay_webSocket := next_ws w |}
       ∧ ∀ ws, WebSocketClose ws ∉ effects r')
  ∧ (∀ w' ev ws,
       WebSocketClose ws ∈ effects (step ev w') →
       ∃ cause,
         rejection w' ev ws cause
         ∧ cause ∈ rejection_paths
         ∧ rejections (effects (step ev w')) = [cause]
         ∧ io (effects (step ev w')) = [WebSocketClose ws]).
Proof.
  intros part hostname r. clear Hmissing.
  assert (claimed_hostname (service w) headers = hostname) as Hhost by done.
  split; [| split; [| split; [| split; [| split]]]].
  - intros Hfree. rewrite <- Hhost in Hfree.
    destruct (WssConnection_fresh headers w Hfree) as (_ & Hp & _ & _ & _ & _ & _ & Hio).
    cbn zeta in Hp. fold r in Hp, Hio. split; [exact Hio |].
    by rewrite Hp, Hhost, lookup_insert_eq.
  - intros existing Hdup. rewrite <- Hhost in Hdup.
    by destruct (WssConnection_duplicate headers w existing Hdup) as (_ & ? & _).
  - intros w' ev cause Hin.
    destruct (step_rejections ev w' cause Hin) as [ws Hrej].
    by destruct (rejection_step w' ev ws cause Hrej) as (_ & _ & ?).
  - intros existing Hdup. rewrite <- Hhost in Hdup.
    by destruct (WssConnection_duplicate headers w existing Hdup) as (? & _).
  - intros row rows Hfree r'. rewrite <- Hhost in Hfree.
    destruct (handshake_passes w headers row rows Hfree) as (Hl & Hio & _).
    fold r' in Hl, Hio. rewrite Hhost in Hl. split; [exact Hl |].
    intros ws Hin. apply io_elem_of_2 in Hin; [| done]. rewrite Hio in Hin.
    destruct (dynamicDNS (service w)); cbn in Hin;
      repeat (apply elem_of_cons in Hin as [Hin|Hin]; [discriminate Hin |]);
      by apply elem_of_nil in Hin.
  - intros w' ev ws Hin. apply io_elem_of_2 in Hin; [| done].
    destruct (close_only_on_rejection ev w' ws Hin) as [cause Hrej].
    destruct (rejection_step w' ev ws cause Hrej) as (Hio & Hrej' & Hpath).
    by exists cause.
Qed.

Lemma missing_headers_are_not_rejected_as_malformed_witness :
  let r := step (WssConnection ∅) (new_World example_config) in
  io (effects r) =
    [DbRun 0 "SELECT id, api_key FROM users WHERE username = $1" [None]]
  ∧ pending (world r) !! 0%nat =
      Some (AuthDbCallback 0 "undefined.undefined.spacekit.io" None).
Proof.
  apply (proj1 (missing_headers_are_not_rejected_as_malformed
                  (new_World example_config) ∅
                  ltac:(left; vm_compute; reflexivity))).
  vm_compute. reflexivity.
Defined.
